(** * DigiVac Quantum UI: device protocol layer and polling engine

    Shallow embedding of [src/src/devices/base.py], [rs232_device.py],
    [simulated_device.py], [src/src/model/model.py], and the parts of
    [utils/logger.py], [controller/controller.py] and [ui/main_ui.py] the
    polling results go through.

    A Python [str] is a [String.string] whose characters are the code points
    0..255 (Latin-1); the bytes of the serial line are a [String.string] too,
    one character per byte.  Python exceptions are values of [exn]; fallible
    code returns [result]. *)

From Stdlib Require Import String Ascii List Bool Arith Lia ZArith QArith.
From Stdlib Require Import SpecFloat.
Import ListNotations.
Open Scope string_scope.
Open Scope nat_scope.

(* ------------------------------------------------------------------ *)
(** ** Python string helpers *)

Definition nl : ascii := "010"%char.
Definition backslash : ascii := "092"%char.

(** [str.isspace] on a Latin-1 character: 9-13, 28-32, U+0085, U+00A0. *)
Definition py_isspace (c : ascii) : bool :=
  let n := nat_of_ascii c in
  ((9 <=? n) && (n <=? 13)) || ((28 <=? n) && (n <=? 32)) ||
  (n =? 133) || (n =? 160).

(** [str.isdigit] on a Latin-1 character: '0'-'9' and the superscripts
    U+00B2, U+00B3, U+00B9. *)
Definition py_isdigit (c : ascii) : bool :=
  let n := nat_of_ascii c in
  ((48 <=? n) && (n <=? 57)) || (n =? 178) || (n =? 179) || (n =? 185).

Fixpoint lstrip_ws (s : string) : string :=
  match s with
  | EmptyString => EmptyString
  | String c r => if py_isspace c then lstrip_ws r else s
  end.

(** [s.rstrip(chars)] for a character predicate. *)
Fixpoint rstrip_by (p : ascii -> bool) (s : string) : string :=
  match s with
  | EmptyString => EmptyString
  | String c r =>
      let r' := rstrip_by p r in
      match r' with
      | EmptyString => if p c then EmptyString else String c EmptyString
      | _ => String c r'
      end
  end.

(** [s.strip()] *)
Definition py_strip (s : string) : string := rstrip_by py_isspace (lstrip_ws s).

(** [s.startswith(t)] *)
Definition startswith (s t : string) : bool := String.prefix t s.

(** [s[n:]] *)
Fixpoint py_drop (n : nat) (s : string) : string :=
  match n, s with
  | O, _ => s
  | S _, EmptyString => EmptyString
  | S k, String _ r => py_drop k r
  end.

(** [sub in s] *)
Fixpoint py_in (sub s : string) : bool :=
  String.prefix sub s ||
  match s with
  | EmptyString => false
  | String _ r => py_in sub r
  end.

(** [all(f(c) for c in s)] *)
Fixpoint str_forallb (f : ascii -> bool) (s : string) : bool :=
  match s with
  | EmptyString => true
  | String c r => f c && str_forallb f r
  end.

(** The upper case of an ASCII letter; other characters are unchanged. *)
Definition ascii_upper (c : ascii) : ascii :=
  let n := nat_of_ascii c in
  if (97 <=? n) && (n <=? 122) then ascii_of_nat (n - 32) else c.

(** [str.upper] on a Latin-1 character other than U+00DF: 'a'-'z' and
    U+00E0-U+00FE except U+00F7 move down by 32.  U+00B5 and U+00FF, whose
    upper cases U+039C and U+0178 lie outside Latin-1, are kept: they stay
    non-ASCII, as their upper cases are, so every ASCII test and every
    comparison with an ASCII string gives Python's answer. *)
Definition latin1_upper (c : ascii) : ascii :=
  let n := nat_of_ascii c in
  if ((97 <=? n) && (n <=? 122)) || ((224 <=? n) && (n <=? 254) && negb (n =? 247))
  then ascii_of_nat (n - 32) else c.

(** [s.upper()]: U+00DF becomes "SS". *)
Fixpoint py_upper (s : string) : string :=
  match s with
  | EmptyString => EmptyString
  | String c r =>
      if nat_of_ascii c =? 223 then String "S" (String "S" (py_upper r))
      else String (latin1_upper c) (py_upper r)
  end.

(** [str(n)] for a non-negative int. *)
Definition digit_char (d : nat) : ascii := ascii_of_nat (48 + d).

Fixpoint digits_aux (fuel n : nat) (acc : string) : string :=
  match fuel with
  | O => acc
  | S f =>
      let acc' := String (digit_char (n mod 10)) acc in
      if n <? 10 then acc' else digits_aux f (n / 10) acc'
  end.

Definition str_of_nat (n : nat) : string := digits_aux (S n) n EmptyString.

(** [repr(z)] for an int. *)
Definition str_of_Z (z : Z) : string :=
  if (z <? 0)%Z then "-" ++ str_of_nat (Z.to_nat (- z)) else str_of_nat (Z.to_nat z).

(** Two lower-case hexadecimal digits, as [%02x] prints a byte. *)
Definition hex_digit (n : nat) : ascii :=
  if n <? 10 then ascii_of_nat (48 + n) else ascii_of_nat (87 + n).

Definition hex2 (n : nat) : string :=
  String (hex_digit (n / 16)) (String (hex_digit (n mod 16)) EmptyString).

(* ------------------------------------------------------------------ *)
(** ** Exceptions and results *)

Inductive exn :=
| DeviceError (msg : string)        (* devices/base.py: DeviceError *)
| RuntimeError (msg : string)       (* builtin RuntimeError *)
| ValueError (msg : string)         (* builtin ValueError *)
| UnicodeDecodeError (msg : string) (* builtin, from bytes.decode *)
| UnicodeEncodeError (msg : string) (* builtin, from str.encode *)
| SerialException (msg : string)    (* pyserial's serial.SerialException *)
| PortNotOpenError                  (* pyserial's serial.PortNotOpenError *)
| OtherError (name msg : string).   (* any other exception, by type name *)

(** Whether [except DeviceError] catches the exception. *)
Definition is_device_error (e : exn) : bool :=
  match e with DeviceError _ => true | _ => false end.

(** [f"{type(ex).__name__}: {ex}"] *)
Definition exn_to_string (e : exn) : string :=
  match e with
  | DeviceError m => "DeviceError: " ++ m
  | RuntimeError m => "RuntimeError: " ++ m
  | ValueError m => "ValueError: " ++ m
  | UnicodeDecodeError m => "UnicodeDecodeError: " ++ m
  | UnicodeEncodeError m => "UnicodeEncodeError: " ++ m
  | SerialException m => "SerialException: " ++ m
  | PortNotOpenError => "PortNotOpenError: Attempting to use a port that is not open"
  | OtherError n m => n ++ ": " ++ m
  end.

Inductive result (A : Type) :=
| Ok (a : A)
| Err (e : exn).
Arguments Ok {A} a.
Arguments Err {A} e.

(** The ASCII codec.  [b.decode("ascii")] fails at the first byte from 128
    on; the error names that byte and its position. *)
Fixpoint ascii_decode_at (i : nat) (b : string) : option exn :=
  match b with
  | EmptyString => None
  | String c r =>
      if 128 <=? nat_of_ascii c
      then Some (UnicodeDecodeError ("'ascii' codec can't decode byte 0x" ++
                   hex2 (nat_of_ascii c) ++ " in position " ++ str_of_nat i ++
                   ": ordinal not in range(128)"))
      else ascii_decode_at (S i) r
  end.

Definition ascii_decode (b : string) : option exn := ascii_decode_at 0 b.

(** The run of characters from 128 on at the start of [s]. *)
Fixpoint non_ascii_run (s : string) : nat :=
  match s with
  | String c r => if 128 <=? nat_of_ascii c then S (non_ascii_run r) else 0
  | EmptyString => 0
  end.

(** [s.encode("ascii")] fails at the first run of characters from 128 on;
    the error names the character, or the positions of the run. *)
Fixpoint ascii_encode_at (i : nat) (s : string) : option exn :=
  match s with
  | EmptyString => None
  | String c r =>
      if 128 <=? nat_of_ascii c then
        let n := non_ascii_run s in
        Some (UnicodeEncodeError
          (if n =? 1
           then "'ascii' codec can't encode character '\x" ++ hex2 (nat_of_ascii c) ++
                "' in position " ++ str_of_nat i ++ ": ordinal not in range(128)"
           else "'ascii' codec can't encode characters in position " ++ str_of_nat i ++
                "-" ++ str_of_nat (i + n - 1) ++ ": ordinal not in range(128)"))
      else ascii_encode_at (S i) r
  end.

Definition ascii_encode (s : string) : option exn := ascii_encode_at 0 s.

(* ------------------------------------------------------------------ *)
(** ** Transport framing (rs232_device.py) *)

(** [_TERMINATOR = "\\r\n"]: a backslash, the letter r, a line feed. *)
Definition _TERMINATOR : string :=
  String backslash (String "r"%char (String nl EmptyString)).

(** [RS232Device._format] for the device address [address]. *)
Definition _format (address : nat) (payload : string) : string :=
  "@" ++ str_of_nat address ++ payload ++ _TERMINATOR.

Fixpoint drop_digits (s : string) : string :=
  match s with
  | String c r => if py_isdigit c then drop_digits r else s
  | EmptyString => EmptyString
  end.

Definition starts_with_digit (s : string) : bool :=
  match s with
  | String c _ => py_isdigit c
  | EmptyString => false
  end.

(** [RS232Device._clean_response]: [line.rstrip("\\")], then drop ['@']
    and the decimal digits that follow it. *)
Definition _clean_response (line : string) : string :=
  let line := rstrip_by (fun c => Ascii.eqb c backslash) line in
  match line with
  | String "@"%char r => drop_digits r
  | _ => line
  end.

(* ------------------------------------------------------------------ *)
(** ** [float(s)] on strings (CPython's [PyFloat_FromString])

    The value is a binary64 [spec_float] of the Standard Library, the
    specification of IEEE 754 arithmetic taken from Flocq. *)

Definition pyfloat := spec_float.

(** Whether an optional sign is ['-']. *)
Definition option_eq_true (o : option bool) : bool :=
  match o with Some true => true | _ => false end.

(** [_PyUnicode_TransformDecimalAndSpaceToASCII]: an ASCII string is kept;
    otherwise characters below 127 are kept, white space becomes ' ', and
    any other character becomes '?' and ends the string (no Latin-1
    character from 127 on is a decimal digit). *)
Fixpoint transform_to_ascii (s : string) : string :=
  match s with
  | EmptyString => EmptyString
  | String c r =>
      if nat_of_ascii c <? 127 then String c (transform_to_ascii r)
      else if py_isspace c then String " " (transform_to_ascii r)
      else String "?" EmptyString
  end.

Definition is_ascii (s : string) : bool :=
  str_forallb (fun c => nat_of_ascii c <? 128) s.

Definition _PyUnicode_TransformDecimalAndSpaceToASCII (s : string) : string :=
  if is_ascii s then s else transform_to_ascii s.

(** C's [isdigit] and [Py_ISSPACE] (9-13 and 32). *)
Definition c_isdigit (c : ascii) : bool :=
  let n := nat_of_ascii c in (48 <=? n) && (n <=? 57).

Definition c_isspace (c : ascii) : bool :=
  let n := nat_of_ascii c in ((9 <=? n) && (n <=? 13)) || (n =? 32).

(** [_Py_string_to_number_with_underscores]: every '_' must follow and
    precede a digit; they are removed.  [prev] is the previous character. *)
Fixpoint remove_underscores (prev : ascii) (s : string) : option string :=
  match s with
  | EmptyString => if Ascii.eqb prev "_" then None else Some EmptyString
  | String c r =>
      if Ascii.eqb c "_" then
        if c_isdigit prev then remove_underscores c r else None
      else if Ascii.eqb prev "_" && negb (c_isdigit c) then None
      else match remove_underscores c r with
           | Some r' => Some (String c r')
           | None => None
           end
  end.

(** The white-space strip of [float_from_string_inner]. *)
Fixpoint c_lstrip (s : string) : string :=
  match s with
  | String c r => if c_isspace c then c_lstrip r else s
  | EmptyString => EmptyString
  end.

Definition c_strip (s : string) : string := rstrip_by c_isspace (c_lstrip s).

Definition digit_val (c : ascii) : Z := Z.of_nat (nat_of_ascii c - 48).

(** Greedy run of decimal digits: accumulated value, number of digits,
    rest. *)
Fixpoint take_digits (s : string) (v : Z) (n : nat) : Z * nat * string :=
  match s with
  | String c r =>
      if c_isdigit c then take_digits r (v * 10 + digit_val c)%Z (S n) else (v, n, s)
  | EmptyString => (v, n, s)
  end.

(** An optional sign: whether it is ['-'], and the rest. *)
Definition split_sign (s : string) : bool * string :=
  match s with
  | String "-"%char r => (true, r)
  | String "+"%char r => (false, r)
  | _ => (false, s)
  end.

(** The exponent part [(e|E) [sign] digits] of [_Py_dg_strtod], which must
    end the string; the empty string is exponent 0. *)
Definition parse_exponent (s : string) : option Z :=
  match s with
  | EmptyString => Some 0%Z
  | String e r =>
      if Ascii.eqb e "e"%char || Ascii.eqb e "E"%char then
        let '(neg, r') := split_sign r in
        match take_digits r' 0 0 with
        | (v, S _, EmptyString) => Some (if neg then (- v)%Z else v)
        | _ => None
        end
      else None
  end.

(** [_Py_dg_strtod] on an unsigned decimal [digits ["." digits] | "." digits]
    with an optional exponent, which must be the whole string: the value is
    [m * 10 ^ k]. *)
Definition parse_decimal (s : string) : option (Z * Z) :=
  let '(ip, ni, r1) := take_digits s 0%Z 0 in
  let '(v, nf, r2) :=
    match r1 with
    | String "."%char r => take_digits r ip 0
    | _ => (ip, 0, r1)
    end in
  if (ni + nf =? 0) then None
  else match parse_exponent r2 with
       | Some e => Some (v, e - Z.of_nat nf)%Z
       | None => None
       end.

(** The binary64 nearest to [m * 10 ^ k] (ties to even), with sign [neg]:
    infinite beyond the largest double, zero or subnormal below the
    smallest.  [10 ^ k] is a product for [k >= 0] and a correctly rounded
    division otherwise. *)
Definition decimal_to_double (neg : bool) (m k : Z) : pyfloat :=
  match m with
  | Zpos p =>
      match k with
      | Zneg q =>
          let '(mz, ez, lz) := SFdiv_core_binary 53 1024 (Zpos p) 0 (10 ^ Zpos q)%Z 0 in
          binary_round_aux 53 1024 neg mz ez lz
      | _ => binary_round 53 1024 neg (Pos.mul p (Z.to_pos (10 ^ k))) 0
      end
  | _ => S754_zero neg
  end.

Fixpoint c_upper (s : string) : string :=
  match s with
  | EmptyString => EmptyString
  | String c r => String (ascii_upper c) (c_upper r)
  end.

(** [_Py_parse_inf_or_nan] on the unsigned part, case-insensitively. *)
Definition parse_inf_or_nan (neg : bool) (body : string) : option pyfloat :=
  let up := c_upper body in
  if String.eqb up "INF" || String.eqb up "INFINITY" then Some (S754_infinity neg)
  else if String.eqb up "NAN" then Some S754_nan
  else None.

(** [float(s)]; [None] is the [ValueError]. *)
Definition py_float (s : string) : option pyfloat :=
  let s := _PyUnicode_TransformDecimalAndSpaceToASCII s in
  match remove_underscores "000"%char s with
  | None => None
  | Some s =>
      let '(neg, body) := split_sign (c_strip s) in
      match parse_inf_or_nan neg body with
      | Some v => Some v
      | None =>
          match parse_decimal body with
          | Some (m, k) => Some (decimal_to_double neg m k)
          | None => None
          end
      end
  end.

(** *** Decimal numerals, as the spec writes them

    A numeral [[+|-] digits [. digits] [(e|E) [+|-] digits]] with at least
    one mantissa digit, and the binary64 nearest to its value. *)

Definition digits_str (ds : list nat) : string :=
  fold_right (fun d s => String (digit_char d) s) EmptyString ds.

Definition sign_str (sg : option bool) : string :=
  match sg with
  | None => EmptyString
  | Some false => "+"
  | Some true => "-"
  end.

Record exponent_part := mkExponent {
  exp_upper : bool;
  exp_sign : option bool;
  exp_digits : list nat;
}.

Record numeral := mkNumeral {
  num_sign : option bool;
  int_digits : list nat;
  frac_digits : option (list nat);
  num_exp : option exponent_part;
}.

Definition frac_list (n : numeral) : list nat :=
  match frac_digits n with Some f => f | None => [] end.

Definition exp_list (n : numeral) : list nat :=
  match num_exp n with Some e => exp_digits e | None => [] end.

Definition render_exp (x : option exponent_part) : string :=
  match x with
  | None => EmptyString
  | Some e => String (if exp_upper e then "E"%char else "e"%char)
                     (sign_str (exp_sign e) ++ digits_str (exp_digits e))
  end.

Definition render_body (n : numeral) : string :=
  digits_str (int_digits n) ++
  (match frac_digits n with
   | None => EmptyString
   | Some f => String "."%char (digits_str f)
   end ++ render_exp (num_exp n)).

(** The numeral's text. *)
Definition render (n : numeral) : string := sign_str (num_sign n) ++ render_body n.

Definition valid_numeral (n : numeral) : bool :=
  forallb (fun d => d <? 10) (int_digits n ++ frac_list n ++ exp_list n) &&
  negb (length (int_digits n) + length (frac_list n) =? 0) &&
  match num_exp n with
  | Some e => negb (length (exp_digits e) =? 0)
  | None => true
  end.

(** The number a digit string denotes, after the digits [v] stands for. *)
Definition horner (v : Z) (ds : list nat) : Z :=
  fold_left (fun acc d => (acc * 10 + Z.of_nat d)%Z) ds v.

(** The numeral's value is [m * 10 ^ k]. *)
Definition numeral_value (n : numeral) : Z * Z :=
  let e := match num_exp n with
           | None => 0%Z
           | Some x => if option_eq_true (exp_sign x)
                       then (- horner 0 (exp_digits x))%Z
                       else horner 0 (exp_digits x)
           end in
  (horner 0 (int_digits n ++ frac_list n), e - Z.of_nat (length (frac_list n)))%Z.

(** The binary64 nearest to the numeral's value, negative zero for ["-0"]. *)
Definition numeral_float (n : numeral) : pyfloat :=
  let '(m, k) := numeral_value n in
  decimal_to_double (option_eq_true (num_sign n)) m k.

(* ------------------------------------------------------------------ *)
(** ** The device interface (devices/base.py) *)

(** The dict [{"pressure": ..., "temperature": ...}] returned by [query]. *)
Record Measurement := mkMeasurement {
  pressure : pyfloat;
  temperature : pyfloat;
}.

(** [BaseDevice]: every method threads the adapter state. *)
Class BaseDevice (D : Type) := {
  connect : D -> D * result unit;
  disconnect : D -> D;
  is_connected : D -> bool;
  read_pressure : D -> D * result pyfloat;
  read_temperature : D -> D * result pyfloat;
  send_command : string -> D -> D * result string;
}.

(** [BaseDevice.query]: pressure first, then temperature; the first
    exception propagates. *)
Definition query {D} `{BaseDevice D} (d : D) : D * result Measurement :=
  let '(d1, rp) := read_pressure d in
  match rp with
  | Err e => (d1, Err e)
  | Ok p =>
      let '(d2, rt) := read_temperature d1 in
      match rt with
      | Err e => (d2, Err e)
      | Ok t => (d2, Ok (mkMeasurement p t))
      end
  end.

(* ------------------------------------------------------------------ *)
(** ** The RS-232 adapter (devices/rs232_device.py) *)

Module RS232Device.

(** The [serial.Serial] handle. *)
Record Serial := mkSerial { ser_is_open : bool }.

(** The exceptions pyserial and the OS raise from the port's I/O:
    [SerialException] (and its subclasses), [ValueError], or another one
    ([OSError], [termios.error], ...), by type name. *)
Inductive io_error :=
| IoSerial (msg : string)
| IoValue (msg : string)
| IoOther (name msg : string).

Definition io_exn (f : io_error) : exn :=
  match f with
  | IoSerial m => SerialException m
  | IoValue m => ValueError m
  | IoOther n m => OtherError n m
  end.

(** What one [readline()] gets: the bytes up to the newline or the
    timeout (so possibly none), or the exception the read raises (a
    [SerialException] when the port was yanked). *)
Inductive rx :=
| RxLine (raw : string)
| RxFail (f : io_error).

(** The port's environment, as oracles read in order.  [lines] answers the
    successive [readline()] calls on the open port, [write_faults] the
    successive [write(...)] and [flush()] pairs, [reset_faults] the
    successive [reset_input_buffer()] calls and [open_faults] the successive
    openings of the port by [serial.Serial(...)]: [None] is success, [Some e]
    the exception raised.  An exhausted oracle means success, and for
    [readline()] a timeout with no bytes.  [lines] lists what [readline()]
    receives after any [reset_input_buffer()]; [sleep] is not modelled. *)
Record env := mkEnv {
  lines : list rx;
  write_faults : list (option io_error);
  reset_faults : list (option io_error);
  open_faults : list (option io_error);
}.

(** A gauge that answers the successive reads with [l], and no faults. *)
Definition replies (l : list string) : env := mkEnv (map RxLine l) [] [] [].

(** Instance attributes ([timeout] keeps its default, [_lock] is not
    modelled), the port's environment [wire], and [sent]: every message
    handed to [self._ser.write] on an open port, in order (one whose write
    raised included). *)
Record t := mkRS232 {
  port : string;
  baudrate : Z;
  address : nat;
  _ser : option Serial;
  wire : env;
  sent : list string;
}.

Definition set_ser (d : t) (s : option Serial) : t :=
  mkRS232 (port d) (baudrate d) (address d) s (wire d) (sent d).
Definition set_wire (d : t) (w : env) : t :=
  mkRS232 (port d) (baudrate d) (address d) (_ser d) w (sent d).
Definition set_sent (d : t) (w : list string) : t :=
  mkRS232 (port d) (baudrate d) (address d) (_ser d) (wire d) w.

Definition pop_fault (l : list (option io_error)) : option io_error * list (option io_error) :=
  match l with
  | [] => (None, [])
  | f :: r => (f, r)
  end.

(** A state and error monad over the adapter. *)
Definition M (A : Type) := t -> t * result A.
Definition ret {A} (a : A) : M A := fun d => (d, Ok a).
Definition raise {A} (e : exn) : M A := fun d => (d, Err e).
Definition bind {A B} (m : M A) (k : A -> M B) : M B :=
  fun d => match m d with
           | (d', Ok a) => k a d'
           | (d', Err e) => (d', Err e)
           end.
Definition gets {A} (f : t -> A) : M A := fun d => (d, Ok (f d)).
(** [try: m except: h] *)
Definition catch {A} (m : M A) (h : exn -> M A) : M A :=
  fun d => match m d with
           | (d', Ok a) => (d', Ok a)
           | (d', Err e) => h e d'
           end.

Notation "x <- m ;; k" := (bind m (fun x => k))
  (at level 61, m at next level, right associativity).

(** [_write]: [if not self._ser] first, then [msg.encode("ascii")], then
    [write] and [flush], which raise [PortNotOpenError] on a closed
    handle. *)
Definition _write (msg : string) : M unit := fun d =>
  match _ser d with
  | None => (d, Err (DeviceError "Serial port not open."))
  | Some s =>
      match ascii_encode msg with
      | Some e => (d, Err e)
      | None =>
          if negb (ser_is_open s) then (d, Err PortNotOpenError) else
          let w := wire d in
          let '(f, rest) := pop_fault (write_faults w) in
          let d' := set_sent (set_wire d (mkEnv (lines w) rest (reset_faults w)
                                               (open_faults w)))
                             (sent d ++ [msg]) in
          match f with
          | Some e => (d', Err (io_exn e))
          | None => (d', Ok tt)
          end
      end
  end.

(** [_readline]: [self._ser.readline().decode("ascii").strip()], and an
    empty line is the timeout. *)
Definition _readline : M string := fun d =>
  match _ser d with
  | None => (d, Err (DeviceError "Serial port not open."))
  | Some s =>
      if negb (ser_is_open s) then (d, Err PortNotOpenError) else
      let w := wire d in
      let '(x, rest) := match lines w with
                        | [] => (RxLine EmptyString, [])
                        | x :: r => (x, r)
                        end in
      let d' := set_wire d (mkEnv rest (write_faults w) (reset_faults w) (open_faults w)) in
      match x with
      | RxFail e => (d', Err (io_exn e))
      | RxLine raw =>
          match ascii_decode raw with
          | Some e => (d', Err e)
          | None =>
              let line := py_strip raw in
              if String.eqb line EmptyString
              then (d', Err (DeviceError "No response from device."))
              else (d', Ok line)
          end
      end
  end.

(** [connect]: [serial.Serial(...)] rejects a negative baud rate, then opens
    the port; [self._ser] is assigned only when both succeed. *)
Definition connect (d : t) : t * result unit :=
  if (baudrate d <? 0)%Z
  then (d, Err (ValueError ("Not a valid baudrate: " ++ str_of_Z (baudrate d))))
  else
    let w := wire d in
    let '(f, rest) := pop_fault (open_faults w) in
    let d' := set_wire d (mkEnv (lines w) (write_faults w) (reset_faults w) rest) in
    match f with
    | Some e => (d', Err (io_exn e))
    | None => (set_ser d' (Some (mkSerial true)), Ok tt)
    end.

(** [disconnect]: closing errors are swallowed; the handle is dropped. *)
Definition disconnect (d : t) : t :=
  match _ser d with
  | Some _ => set_ser d None
  | None => d
  end.

Definition is_connected (d : t) : bool :=
  match _ser d with
  | Some s => ser_is_open s
  | None => false
  end.

(** [if self._ser: self._ser.reset_input_buffer()] *)
Definition reset_input : M unit := fun d =>
  match _ser d with
  | Some s =>
      if negb (ser_is_open s) then (d, Err PortNotOpenError) else
      let w := wire d in
      let '(f, rest) := pop_fault (reset_faults w) in
      let d' := set_wire d (mkEnv (lines w) (write_faults w) rest (open_faults w)) in
      match f with
      | Some e => (d', Err (io_exn e))
      | None => (d', Ok tt)
      end
  | None => (d, Ok tt)
  end.

(** [send_command] *)
Definition send_command (cmd : string) : M string :=
  _ <- reset_input ;; _ <- _write cmd ;; _readline.

(** The parsing half of [_query_numeric], on the cleaned response. *)
Definition parse_ack_numeric (resp : string) : result pyfloat :=
  if negb (startswith resp "ACK")
  then Err (DeviceError ("Unexpected response: " ++ resp))
  else match py_float (py_drop 3 resp) with
       | Some v => Ok v
       | None => Err (DeviceError ("Bad numeric value: " ++ resp))
       end.

(** [_query_numeric] *)
Definition _query_numeric (mnemonic : string) : M pyfloat :=
  addr <- gets address ;;
  _ <- _write (_format addr (mnemonic ++ "?")) ;;
  line <- _readline ;;
  fun d => (d, parse_ack_numeric (_clean_response line)).

Definition read_pressure : M pyfloat := _query_numeric "P".
Definition read_temperature : M pyfloat := _query_numeric "T".

(** [get_pressure_unit] *)
Definition get_pressure_unit : M string :=
  addr <- gets address ;;
  resp <- send_command (_format addr "U?P") ;;
  let resp := _clean_response resp in
  if negb (startswith resp "ACK")
  then raise (DeviceError ("Failed to query pressure unit: " ++ resp))
  else ret (py_upper (py_strip (py_drop 3 resp))).

(** [for _ in range(n): try: _readline() except DeviceError: break] *)
Fixpoint drain (n : nat) : M unit :=
  match n with
  | O => ret tt
  | S k =>
      cont <- catch (_ <- _readline ;; ret true)
                    (fun e => match e with
                              | DeviceError _ => ret false
                              | _ => raise e
                              end) ;;
      if cont then drain k else ret tt
  end.

(** [set_pressure_unit] *)
Definition set_pressure_unit (unit : string) : M Datatypes.unit :=
  let target := py_upper unit in
  already <- catch (u <- get_pressure_unit ;; ret (String.eqb u target))
                   (fun e => match e with
                             | DeviceError _ => ret false
                             | _ => raise e
                             end) ;;
  if already then ret tt else
  addr <- gets address ;;
  prt <- gets port ;;
  _ <- _write (_format addr ("U!P," ++ target)) ;;
  _ <- drain 2 ;;
  catch (u <- get_pressure_unit ;;
         if String.eqb u target then ret tt
         else raise (DeviceError ("Device on port " ++ prt ++
                                  ": Gauge did not switch to " ++ target)))
        (fun e => match e with
                  | DeviceError m => raise (DeviceError ("Device on port " ++ prt ++ ": " ++ m))
                  | _ => raise e
                  end).

End RS232Device.

#[export] Instance RS232_base : BaseDevice RS232Device.t := {
  connect := RS232Device.connect;
  disconnect := RS232Device.disconnect;
  is_connected := RS232Device.is_connected;
  read_pressure := RS232Device.read_pressure;
  read_temperature := RS232Device.read_temperature;
  send_command := RS232Device.send_command;
}.

(* ------------------------------------------------------------------ *)
(** ** The simulated adapter (devices/simulated_device.py) *)

Module SimulatedDevice.

(** Instance attributes, and [now] for the value of [time.time()]. *)
Record t := mkSim {
  start_time : option Q;
  start_pressure : Q;
  temp : Q;
  noise : Q;
  _connected : bool;
  now : Q;
}.

Section Simulated.
(** The floating-point readings and their formatting are outside this
    model: [pressure_value d] stands for
    [max(P0 * 10 ** (-(elapsed/120)) + jitter, 1e-9)] (with
    [random.random()]), [temperature_value d] for
    [temp + 0.5 * sin(elapsed/60)], and [fmt_e3], [fmt_2f] for the format
    specs [:.3e] and [:.2f]. *)
Variable pressure_value temperature_value : t -> pyfloat.
Variable fmt_e3 fmt_2f : pyfloat -> string.

Definition connect (d : t) : t * result unit :=
  (mkSim (Some (now d)) (start_pressure d) (temp d) (noise d) true (now d), Ok tt).

Definition disconnect (d : t) : t :=
  mkSim (start_time d) (start_pressure d) (temp d) (noise d) false (now d).

Definition is_connected (d : t) : bool := _connected d.

Definition read_pressure (d : t) : t * result pyfloat :=
  if negb (_connected d)
  then (d, Err (RuntimeError "Not connected (simulation mode)."))
  else (d, Ok (pressure_value d)).

Definition read_temperature (d : t) : t * result pyfloat :=
  if negb (_connected d)
  then (d, Err (RuntimeError "Not connected (simulation mode)."))
  else (d, Ok (temperature_value d)).

Definition send_command (cmd : string) (d : t) : t * result string :=
  if py_in "P?" cmd then
    match read_pressure d with
    | (d', Ok v) => (d', Ok ("ACK" ++ fmt_e3 v))
    | (d', Err e) => (d', Err e)
    end
  else if py_in "T?" cmd then
    match read_temperature d with
    | (d', Ok v) => (d', Ok ("ACK" ++ fmt_2f v))
    | (d', Err e) => (d', Err e)
    end
  else (d, Ok "ACKOK").

#[export] Instance sim_base : BaseDevice t := {
  connect := connect;
  disconnect := disconnect;
  is_connected := is_connected;
  read_pressure := read_pressure;
  read_temperature := read_temperature;
  send_command := send_command;
}.

End Simulated.
End SimulatedDevice.

(* ------------------------------------------------------------------ *)
(** ** The polling engine (model/model.py) *)

Module MeasurementModel.

Local Open Scope list_scope.

(** What a callback receives: the measurement dict, or
    [{"error": f"{type(ex).__name__}: {ex}"}]. *)
Inductive message :=
| MMeasurement (m : Measurement)
| MError (text : string).

(** Program points of one [_loop] thread.  [LoopHead] is the
    [while not self._stop.is_set()] test and [Querying] the
    [self.device.query()] after it; [Fanout m i] and [ErrFanout text i] are
    the [for cb in self._callbacks] loops about to call callback number [i];
    [LogRow m] is the [logger.append]; [Sleeping] the [time.sleep];
    [Exited] a finished thread. *)
Inductive pc :=
| LoopHead
| Querying
| Fanout (m : Measurement) (i : nat)
| ErrFanout (text : string) (i : nat)
| LogRow (m : Measurement)
| Sleeping
| Exited.

Definition alive (p : pc) : bool :=
  match p with Exited => false | _ => true end.

(** Observable effects, in the order they happen. *)
Inductive event :=
| Deliver (i : nat) (msg : message)  (* callback number [i] called *)
| Append (m : Measurement)           (* [self.logger.append(...)] row *)
| DevConnect                         (* [self.device.connect()] called *)
| StartFailed (e : exn)              (* ... and raised [e] out of [start()] *)
| Launch                             (* a new thread started *)
| DevDisconnect.                     (* [self.device.disconnect()] *)

(** Where the caller of the public API is: free, or inside [stop()]
    waiting in [self._thread.join()]. *)
Inductive caller := Idle | Joining.

(** The events of [l] up to the first [Launch]: what one run of the loop
    (and the caller) did before the next [start()] launched a thread. *)
Fixpoint until_launch (l : list event) : list event :=
  match l with
  | [] => []
  | Launch :: _ => []
  | e :: r => e :: until_launch r
  end.

(** The events of the caller's own calls on the device. *)
Definition caller_event (e : event) : bool :=
  match e with
  | DevConnect | StartFailed _ | DevDisconnect => true
  | _ => false
  end.

(** The deliveries of the error [text] to callbacks [i .. i+n-1]. *)
Definition error_deliveries (text : string) (i n : nat) : list event :=
  map (fun k => Deliver k (MError text)) (seq i n).

(** The deliveries of [m] to callbacks [0 .. n-1], in order. *)
Definition fanout_events (m : Measurement) (n : nat) : list event :=
  map (fun i => Deliver i (MMeasurement m)) (seq 0 n).

(** Whether [l] ends where a loop iteration of the newest thread starts:
    at the [Launch] of the thread or at the row of its previous sample. *)
Definition iteration_start (l : list event) : bool :=
  match last l DevConnect with
  | Launch | Append _ => true
  | _ => false
  end.

Section Engine.
Context {D : Type} `{BaseDevice D}.

(** [callbacks] is [len(self._callbacks)]; callback [i] is the [i]-th
    registered.  [threads] lists every thread [start()] created, newest
    first: its head is [self._thread]. *)
Record state := mkState {
  device : D;
  callbacks : nat;
  threads : list pc;
  stop_set : bool;
  caller_at : caller;
  trace : list event;
}.

Definition init (d : D) : state := mkState d 0 [] false Idle [].

(** [self._thread and self._thread.is_alive()] *)
Definition thread_alive (s : state) : bool :=
  match threads s with
  | p :: _ => alive p
  | [] => false
  end.

(** One step of a [_loop] thread at point [p]. *)
Definition loop_step (p : pc) (d : D) (ncb : nat) (flag : bool)
  : pc * D * list event :=
  match p with
  | LoopHead => if flag then (Exited, d, []) else (Querying, d, [])
  | Querying =>
      let '(d', r) := query d in
      match r with
      | Err e => (ErrFanout (exn_to_string e) 0, d', [])
      | Ok m => (Fanout m 0, d', [])
      end
  | Fanout m i =>
      if i <? ncb then (Fanout m (S i), d, [Deliver i (MMeasurement m)])
      else (LogRow m, d, [])
  | ErrFanout text i =>
      if i <? ncb then (ErrFanout text (S i), d, [Deliver i (MError text)])
      else (Exited, d, [])
  | LogRow m => (Sleeping, d, [Append m])
  | Sleeping => (LoopHead, d, [])
  | Exited => (Exited, d, [])
  end.

(** The steps at which an uncaught exception can end a thread: a callback
    that raises (called, so its call is an event), or the row's
    construction or file append raising ([IndexError], [OSError]), or
    [time.sleep] rejecting a negative [poll_interval] ([ValueError]); the
    interval is not part of this state, so the last is always possible. *)
Definition raising_step (p : pc) (ncb : nat) : option (list event) :=
  match p with
  | Fanout m i => if i <? ncb then Some [Deliver i (MMeasurement m)] else None
  | ErrFanout text i => if i <? ncb then Some [Deliver i (MError text)] else None
  | LogRow _ => Some []
  | Sleeping => Some []
  | _ => None
  end.

(** [start()]: when [connect()] raises, [start()] raises it and starts no
    thread. *)
Definition start (s : state) : state :=
  if thread_alive s then s
  else let '(d', r) := connect (device s) in
       match r with
       | Ok _ => mkState d' (callbacks s) (LoopHead :: threads s)
                         false (caller_at s) (trace s ++ [DevConnect; Launch])
       | Err e => mkState d' (callbacks s) (threads s) (stop_set s) (caller_at s)
                          (trace s ++ [DevConnect; StartFailed e])
       end.

(** [subscribe(cb)] *)
Definition subscribe (s : state) : state :=
  mkState (device s) (S (callbacks s)) (threads s) (stop_set s) (caller_at s)
          (trace s).

(** [stop()] up to the [join]: [self._stop.set()]. *)
Definition stop_signal (s : state) : state :=
  mkState (device s) (callbacks s) (threads s) true Joining (trace s).

(** [stop()] after the [join] returned: [self.device.disconnect()]. *)
Definition stop_return (s : state) : state :=
  mkState (disconnect (device s)) (callbacks s) (threads s) (stop_set s) Idle
          (trace s ++ [DevDisconnect]).

(** The head thread takes one step. *)
Definition head_step (s : state) : state :=
  match threads s with
  | p :: post =>
      let '(p', d', evs) := loop_step p (device s) (callbacks s) (stop_set s) in
      mkState d' (callbacks s) (p' :: post) (stop_set s) (caller_at s)
              (trace s ++ evs)
  | [] => s
  end.

(** The system: any live thread steps (or dies of an uncaught exception),
    or the caller runs an API call.  [join] blocks until [self._thread] is
    no longer alive. *)
Inductive step : state -> state -> Prop :=
| step_thread : forall s pre p post p' d' evs,
    threads s = pre ++ p :: post ->
    alive p = true ->
    loop_step p (device s) (callbacks s) (stop_set s) = (p', d', evs) ->
    step s (mkState d' (callbacks s) (pre ++ p' :: post) (stop_set s)
                    (caller_at s) (trace s ++ evs))
| step_thread_raise : forall s pre p post evs,
    threads s = pre ++ p :: post ->
    raising_step p (callbacks s) = Some evs ->
    step s (mkState (device s) (callbacks s) (pre ++ Exited :: post) (stop_set s)
                    (caller_at s) (trace s ++ evs))
| step_start : forall s, caller_at s = Idle -> step s (start s)
| step_subscribe : forall s, caller_at s = Idle -> step s (subscribe s)
| step_stop_signal : forall s, caller_at s = Idle -> step s (stop_signal s)
| step_stop_return : forall s,
    caller_at s = Joining -> thread_alive s = false -> step s (stop_return s).

Definition head_pc (s : state) : option pc := hd_error (threads s).

(** [n] steps of the newest thread. *)
Fixpoint head_steps (n : nat) (s : state) : state :=
  match n with
  | O => s
  | S k => head_steps k (head_step s)
  end.

Inductive reachable : state -> Prop :=
| reach_init : forall d, reachable (init d)
| reach_step : forall s s', reachable s -> step s s' -> reachable s'.

End Engine.
End MeasurementModel.

(* ------------------------------------------------------------------ *)
(** ** The CSV logger (utils/logger.py) *)

(** [s.split(sep)] for a one-character separator. *)
Fixpoint py_split_char (sep : ascii) (s : string) : list string :=
  match s with
  | EmptyString => [EmptyString]
  | String x r =>
      let parts := py_split_char sep r in
      if Ascii.eqb x sep then EmptyString :: parts
      else match parts with
           | p :: ps => String x p :: ps
           | [] => [String x EmptyString]
           end
  end.

(** [s.rfind(c)], [None] for [-1]. *)
Fixpoint rfind_char (c : ascii) (s : string) : option nat :=
  match s with
  | EmptyString => None
  | String x r =>
      match rfind_char c r with
      | Some i => Some (S i)
      | None => if Ascii.eqb x c then Some 0 else None
      end
  end.

(** [PurePath.name]: the last ['/']-separated component. *)
Definition path_name (p : string) : string :=
  last (py_split_char "/"%char p) EmptyString.

(** [PurePath.stem]: [i = name.rfind('.')]; [name[:i]] when
    [0 < i < len(name) - 1], else [name]. *)
Definition path_stem (p : string) : string :=
  let name := path_name p in
  match rfind_char "."%char name with
  | Some i => if (0 <? i) && (i <? String.length name - 1)
              then substring 0 i name else name
  | None => name
  end.

Module CsvLogger.

(** [_base_dir] is [Path(directory)]; [stamp] is
    [datetime.utcnow().strftime("%Y%m%d_%H%M%S")] at creation. *)
Record t := mkLogger {
  _base_dir : string;
  prefix : string;
  unit : string;
  stamp : string;
}.

(** [CsvLogger(prefix, unit, directory)]; the header row it writes to the
    new file is not modelled. *)
Definition create (prefix unit directory stamp : string) : t :=
  mkLogger directory prefix unit stamp.

(** [self._file_path] *)
Definition _file_path (l : t) : string :=
  _base_dir l ++ "/" ++ prefix l ++ "_" ++ unit l ++ "_measurements_" ++
  stamp l ++ ".csv".

End CsvLogger.

(** A CSV cell of the row [_loop] appends: a string or a float. *)
Inductive cell := CStr (s : string) | CFloat (f : pyfloat).

(** The row [MeasurementModel._loop] hands to [self.logger.append]:
    [[time.strftime(...), self.logger._file_path.stem.split("_")[1],
      data["pressure"], data["temperature"], ""]];
    [None] is the [IndexError] of [[1]] on a stem without ['_'].
    [ts] is the formatted time. *)
Definition log_row (l : CsvLogger.t) (ts : string) (m : Measurement)
  : option (list cell) :=
  match nth_error (py_split_char "_"%char (path_stem (CsvLogger._file_path l))) 1 with
  | Some u => Some [CStr ts; CStr u; CFloat (pressure m); CFloat (temperature m);
                    CStr ""]
  | None => None
  end.

(* ------------------------------------------------------------------ *)
(** ** The controller (controller/controller.py) *)

Module Controller.
Import MeasurementModel.

(** The device a model owns: the RS-232 adapter or the simulator. *)
Inductive adapter :=
| Real (d : RS232Device.t)
| Simulated (d : SimulatedDevice.t).

(** A [MeasurementModel] object: its engine state (device, callbacks,
    thread, flag), [poll_interval] and [logger]. *)
Record model := mkModel {
  engine : state (D:=adapter);
  poll_interval : Q;
  logger : CsvLogger.t;
}.

(** The controller's attributes; [_pending_unit] is [None] until a method
    first assigns it ([__init__] does not). *)
Record t := mkController {
  _model : option model;
  _pending_unit : option (option string);
}.

(** [Controller.stop]: [self._model.stop()] (the model object is then
    dropped) and [self._model = None]. *)
Definition stop (c : t) : t :=
  match _model c with
  | Some m => mkController None (_pending_unit c)
  | None => c
  end.

End Controller.

(* ------------------------------------------------------------------ *)
(** ** The dashboard's queue drain (ui/main_ui.py) *)

(** A row of [st.session_state.data]. *)
Record row := mkRow {
  row_timestamp : string;
  row_pressure : pyfloat;
  row_temperature : pyfloat;
}.

(** The [while True: item = ctrl.queue.get_nowait() ...] loop over the
    items queued when it runs: a measurement becomes a row stamped
    [utcnow k] (the [k]-th item taken), an error ends the loop, an empty
    queue ([Empty]) too.  Returns the items left, the table and the error. *)
Fixpoint drain_items (utcnow : nat -> string) (k : nat)
  (q : list MeasurementModel.message) (df : list row)
  : list MeasurementModel.message * list row * option string :=
  match q with
  | [] => ([], df, None)
  | MeasurementModel.MError e :: q' => (q', df, Some e)
  | MeasurementModel.MMeasurement m :: q' =>
      drain_items utcnow (S k) q'
        (df ++ [mkRow (utcnow k) (pressure m) (temperature m)])
  end.

(** [_drain_queue(ctrl)]: on an error item, [error_msg] is set and
    [ctrl.stop()] runs. *)
Definition _drain_queue (utcnow : nat -> string) (q : list MeasurementModel.message)
  (df : list row) (error_msg : string) (c : Controller.t)
  : list MeasurementModel.message * list row * string * Controller.t :=
  let '(q', df', e) := drain_items utcnow 0 q df in
  match e with
  | Some msg => (q', df', msg, Controller.stop c)
  | None => (q', df', error_msg, c)
  end.
(* ================================================================== *)
(** * Properties *)

(* ------------------------------------------------------------------ *)
(** ** Strings *)

Lemma str_app_assoc (a b c : string) : ((a ++ b) ++ c)%string = (a ++ (b ++ c))%string.
Proof. induction a as [|x a IH]; simpl; congruence. Qed.

Lemma str_app_nil_r (a : string) : (a ++ EmptyString)%string = a.
Proof. induction a as [|x a IH]; simpl; congruence. Qed.

Lemma str_forallb_app f x y :
  str_forallb f (x ++ y) = str_forallb f x && str_forallb f y.
Proof.
  induction x as [|c x IH]; [reflexivity|]. cbn. rewrite IH. apply andb_assoc.
Qed.

Lemma str_forallb_impl (f g : ascii -> bool) s :
  (forall c, f c = true -> g c = true) ->
  str_forallb f s = true -> str_forallb g s = true.
Proof.
  intros Hfg. induction s as [|c s IH]; [reflexivity|]. cbn.
  intros H. apply andb_prop in H as [Hc Hs].
  rewrite (Hfg c Hc), (IH Hs). reflexivity.
Qed.

Lemma digit_char_code d : d < 10 -> nat_of_ascii (digit_char d) = 48 + d.
Proof. intros Hd. unfold digit_char. apply nat_ascii_embedding. lia. Qed.

Lemma digit_char_c_isdigit d : d < 10 -> c_isdigit (digit_char d) = true.
Proof.
  intros Hd. unfold c_isdigit. rewrite digit_char_code by exact Hd.
  apply andb_true_intro; split; apply Nat.leb_le; lia.
Qed.

Lemma digit_char_val d : d < 10 -> digit_val (digit_char d) = Z.of_nat d.
Proof.
  intros Hd. unfold digit_val. rewrite digit_char_code by exact Hd. f_equal. lia.
Qed.

Lemma c_isdigit_py_isdigit c : c_isdigit c = true -> py_isdigit c = true.
Proof.
  unfold c_isdigit, py_isdigit. intros H. rewrite H. reflexivity.
Qed.

Lemma c_isdigit_ascii c : c_isdigit c = true -> (nat_of_ascii c <? 128) = true.
Proof.
  unfold c_isdigit. intros H. apply andb_prop in H as [_ H].
  apply Nat.leb_le in H. apply Nat.ltb_lt. lia.
Qed.

Lemma digits_aux_digits fuel : forall n acc,
  str_forallb c_isdigit acc = true ->
  str_forallb c_isdigit (digits_aux fuel n acc) = true.
Proof.
  induction fuel as [|f IH]; intros n acc Hacc; cbn [digits_aux]; [exact Hacc|].
  assert (Hc : c_isdigit (digit_char (n mod 10)) = true)
    by (apply digit_char_c_isdigit, Nat.mod_upper_bound; lia).
  destruct (n <? 10).
  - cbn [str_forallb]. rewrite Hc, Hacc. reflexivity.
  - apply IH. cbn [str_forallb]. rewrite Hc, Hacc. reflexivity.
Qed.

(** [str(n)] is made of ASCII decimal digits. *)
Lemma str_of_nat_digits n : str_forallb c_isdigit (str_of_nat n) = true.
Proof. apply digits_aux_digits. reflexivity. Qed.

Lemma drop_digits_digits s y :
  str_forallb c_isdigit s = true -> drop_digits (s ++ y) = drop_digits y.
Proof.
  induction s as [|c s IH]; cbn [append drop_digits str_forallb]; intros Hs; [reflexivity|].
  apply andb_prop in Hs as [Hc Hs]. rewrite (c_isdigit_py_isdigit c Hc).
  apply IH, Hs.
Qed.

Lemma drop_digits_app x y :
  starts_with_digit y = false -> drop_digits (x ++ y) = (drop_digits x ++ y)%string.
Proof.
  intros Hy. induction x as [|c x IH]; cbn [append drop_digits].
  - destruct y as [|c y]; [reflexivity|]. cbn [starts_with_digit] in Hy.
    cbn [drop_digits]. rewrite Hy. reflexivity.
  - destruct (py_isdigit c); [exact IH | reflexivity].
Qed.

Lemma rstrip_by_cons p c r :
  rstrip_by p (String c r) =
  match rstrip_by p r with
  | EmptyString => if p c then EmptyString else String c EmptyString
  | _ => String c (rstrip_by p r)
  end.
Proof. reflexivity. Qed.

(** [(x + y).rstrip(chars)] *)
Lemma rstrip_by_app p x y :
  rstrip_by p (x ++ y) =
  match rstrip_by p y with
  | EmptyString => rstrip_by p x
  | _ => (x ++ rstrip_by p y)%string
  end.
Proof.
  induction x as [|c x IH]; cbn [append].
  - destruct (rstrip_by p y); reflexivity.
  - cbn [rstrip_by]. rewrite IH.
    destruct (rstrip_by p y) as [|a b] eqn:E; [reflexivity|].
    destruct x; reflexivity.
Qed.

Lemma rstrip_by_keep p x y :
  rstrip_by p y = y -> y <> EmptyString -> rstrip_by p (x ++ y) = (x ++ y)%string.
Proof.
  intros Hy Hne. rewrite rstrip_by_app, Hy. destruct y; [congruence | reflexivity].
Qed.

Lemma rstrip_by_none p s :
  str_forallb (fun c => negb (p c)) s = true -> rstrip_by p s = s.
Proof.
  induction s as [|c s IH]; cbn; intros H; [reflexivity|].
  apply andb_prop in H as [Hc Hs]. rewrite (IH Hs).
  destruct s; [|reflexivity]. destruct (p c); [discriminate Hc | reflexivity].
Qed.

Lemma rstrip_by_last (f : ascii -> bool) c s :
  f c = false -> rstrip_by f (s ++ String c EmptyString) = (s ++ String c EmptyString)%string.
Proof.
  intros Hc. apply rstrip_by_keep; [cbn; rewrite Hc; reflexivity | discriminate].
Qed.

Lemma rstrip_by_idem p s : rstrip_by p (rstrip_by p s) = rstrip_by p s.
Proof.
  induction s as [|c r IH]; [reflexivity|]. rewrite rstrip_by_cons.
  destruct (rstrip_by p r) as [|x y] eqn:E.
  - destruct (p c) eqn:Hc; cbn; [reflexivity|]. rewrite Hc. reflexivity.
  - rewrite rstrip_by_cons, IH. reflexivity.
Qed.

Lemma rstrip_by_no_last p s t c :
  rstrip_by p s = (t ++ String c EmptyString)%string -> p c = false.
Proof.
  revert t. induction s as [|x r IH]; intros t Hs.
  - destruct t; discriminate Hs.
  - cbn [rstrip_by] in Hs. destruct (rstrip_by p r) as [|y z] eqn:E.
    + destruct (p x) eqn:Hx; [destruct t; discriminate Hs|].
      destruct t as [|a t]; cbn in Hs.
      * injection Hs as ->. exact Hx.
      * injection Hs as _ Ht. destruct t; discriminate Ht.
    + destruct t as [|a t]; cbn in Hs.
      * injection Hs as _ Ht. discriminate Ht.
      * injection Hs as _ Ht. exact (IH t Ht).
Qed.

Lemma prefix_app (s t : string) : String.prefix s (s ++ t) = true.
Proof.
  induction s as [|c s IH]; simpl.
  - destruct t; reflexivity.
  - destruct (ascii_dec c c) as [_|n]; [exact IH | contradiction].
Qed.




Lemma is_ascii_app x y : is_ascii (x ++ y) = is_ascii x && is_ascii y.
Proof. apply str_forallb_app. Qed.

Lemma ascii_encode_at_ascii s : forall i,
  is_ascii s = true -> ascii_encode_at i s = None.
Proof.
  induction s as [|c s IH]; intros i H; [reflexivity|].
  unfold is_ascii in H. cbn [str_forallb] in H. apply andb_prop in H as [Hc Hs].
  cbn [ascii_encode_at]. apply Nat.ltb_lt in Hc.
  replace (128 <=? nat_of_ascii c) with false by (symmetry; apply Nat.leb_gt; lia).
  apply IH, Hs.
Qed.

Lemma ascii_decode_at_ascii s : forall i,
  is_ascii s = true -> ascii_decode_at i s = None.
Proof.
  induction s as [|c s IH]; intros i H; [reflexivity|].
  unfold is_ascii in H. cbn [str_forallb] in H. apply andb_prop in H as [Hc Hs].
  cbn [ascii_decode_at]. apply Nat.ltb_lt in Hc.
  replace (128 <=? nat_of_ascii c) with false by (symmetry; apply Nat.leb_gt; lia).
  apply IH, Hs.
Qed.

Lemma str_of_nat_ascii n : is_ascii (str_of_nat n) = true.
Proof.
  exact (str_forallb_impl _ _ _ c_isdigit_ascii (str_of_nat_digits n)).
Qed.

(** A framed command is encodable exactly when its payload is ASCII. *)
Lemma format_ascii a p :
  is_ascii p = true -> ascii_encode (_format a p) = None.
Proof.
  intros Hp. apply ascii_encode_at_ascii. unfold _format.
  rewrite !is_ascii_app, str_of_nat_ascii, Hp. reflexivity.
Qed.

(* ------------------------------------------------------------------ *)
(** ** Framing *)

(** C3 (as stated): for an address in [1,253], cleaning the framed line
    [_format address payload] gives back [payload].  False: at address 253
    the payload "ACK" comes back as "ACK" followed by the terminator. *)
Lemma framing_roundtrip_counterexample :
  ~ (forall a p, 1 <= a <= 253 -> _clean_response (_format a p) = p).
Proof.
  intros H. specialize (H 253 "ACK"%string ltac:(lia)).
  vm_compute in H. discriminate H.
Qed.

(** C3 (amended): for every address and payload, and every terminator
    that neither starts with a digit nor ends with a backslash (the code's
    [_TERMINATOR], or a CR-LF), cleaning the line
    ["@" ++ str(address) ++ payload ++ terminator] removes the ["@<address>"]
    echo and the decimal digits that begin the payload, and keeps the
    terminator. *)
Theorem framing_clean_keeps_terminator a p term :
  starts_with_digit term = false -> term <> EmptyString ->
  rstrip_by (fun c => Ascii.eqb c backslash) term = term ->
  _clean_response ("@" ++ str_of_nat a ++ p ++ term) = (drop_digits p ++ term)%string /\
  _clean_response (_format a p) = (drop_digits p ++ _TERMINATOR)%string.
Proof.
  assert (Hgen : forall term, starts_with_digit term = false -> term <> EmptyString ->
            rstrip_by (fun c => Ascii.eqb c backslash) term = term ->
            _clean_response ("@" ++ str_of_nat a ++ p ++ term) =
              (drop_digits p ++ term)%string).
  { intros t Hd Hne Hr. unfold _clean_response.
    replace ("@" ++ str_of_nat a ++ p ++ t)%string
      with (("@" ++ str_of_nat a ++ p) ++ t)%string by (rewrite !str_app_assoc; reflexivity).
    rewrite rstrip_by_keep by assumption. cbn [append].
    rewrite str_app_assoc, drop_digits_digits by apply str_of_nat_digits.
    apply drop_digits_app, Hd. }
  intros Hd Hne Hr. split; [exact (Hgen term Hd Hne Hr)|].
  apply Hgen; [reflexivity | discriminate | reflexivity].
Qed.

Lemma framing_clean_keeps_terminator_witness :
  _clean_response ("@" ++ str_of_nat 253 ++ "ACK" ++
                   String "013" (String "010" EmptyString)) =
    ("ACK" ++ String "013" (String "010" EmptyString))%string /\
  _clean_response (_format 253 "ACK") = ("ACK" ++ _TERMINATOR)%string.
Proof.
  apply (framing_clean_keeps_terminator 253 "ACK"
           (String "013" (String "010" EmptyString)));
    [reflexivity | discriminate | reflexivity].
Defined.

(* ------------------------------------------------------------------ *)
(** ** Acknowledgment parsing *)

(** Characters of a rendered numeral. *)
Lemma numeral_char_facts c :
  (c_isdigit c || Ascii.eqb c "+" || Ascii.eqb c "-" || Ascii.eqb c "." ||
   Ascii.eqb c "e" || Ascii.eqb c "E") = true ->
  (nat_of_ascii c <? 128) = true /\ Ascii.eqb c "_" = false /\ c_isspace c = false.
Proof.
  intros H. destruct c as [[] [] [] [] [] [] [] []]; vm_compute in H |- *;
    first [discriminate H | repeat split].
Qed.

Lemma split_sign_start c r :
  (c_isdigit c || Ascii.eqb c ".") = true -> split_sign (String c r) = (false, String c r).
Proof.
  intros H. destruct c as [[] [] [] [] [] [] [] []]; vm_compute in H;
    first [discriminate H | reflexivity].
Qed.

Lemma parse_inf_or_nan_start neg c r :
  (c_isdigit c || Ascii.eqb c ".") = true -> parse_inf_or_nan neg (String c r) = None.
Proof.
  intros H. destruct c as [[] [] [] [] [] [] [] []]; vm_compute in H;
    first [discriminate H | reflexivity].
Qed.

Lemma take_digits_app ds rest v n :
  forallb (fun d => d <? 10) ds = true ->
  take_digits (digits_str ds ++ rest) v n =
  take_digits rest (horner v ds) (n + length ds).
Proof.
  revert v n. induction ds as [|d ds IH]; intros v n Hds.
  - cbn. rewrite Nat.add_0_r. reflexivity.
  - cbn [forallb] in Hds. apply andb_prop in Hds as [Hd Hds]. apply Nat.ltb_lt in Hd.
    cbn [digits_str fold_right append take_digits].
    fold (digits_str ds). rewrite digit_char_c_isdigit, digit_char_val by exact Hd.
    rewrite IH by exact Hds. cbn [length]. rewrite Nat.add_succ_r. reflexivity.
Qed.

Lemma take_digits_stop c r v n :
  c_isdigit c = false -> take_digits (String c r) v n = (v, n, String c r).
Proof. intros H. cbn. rewrite H. reflexivity. Qed.

Lemma horner_app v x y : horner v (x ++ y) = horner (horner v x) y.
Proof. unfold horner. apply fold_left_app. Qed.

Lemma numeral_chars n :
  valid_numeral n = true ->
  str_forallb (fun c => c_isdigit c || Ascii.eqb c "+" || Ascii.eqb c "-" ||
                        Ascii.eqb c "." || Ascii.eqb c "e" || Ascii.eqb c "E")
              (render n) = true.
Proof.
  intros Hv. unfold valid_numeral in Hv.
  apply andb_prop in Hv as [Hv _]. apply andb_prop in Hv as [Hd _].
  rewrite !forallb_app in Hd.
  apply andb_prop in Hd as [Hi Hd]. apply andb_prop in Hd as [Hf He].
  assert (Hds : forall ds, forallb (fun d => d <? 10) ds = true ->
            str_forallb (fun c => c_isdigit c || Ascii.eqb c "+" || Ascii.eqb c "-" ||
                        Ascii.eqb c "." || Ascii.eqb c "e" || Ascii.eqb c "E")
                        (digits_str ds) = true).
  { induction ds as [|d ds IH]; intros H; [reflexivity|].
    cbn [forallb] in H. apply andb_prop in H as [Hd0 H]. apply Nat.ltb_lt in Hd0.
    cbn [digits_str fold_right str_forallb]. fold (digits_str ds).
    rewrite digit_char_c_isdigit by exact Hd0. rewrite (IH H). reflexivity. }
  assert (Hsg : forall sg, str_forallb (fun c => c_isdigit c || Ascii.eqb c "+" ||
                 Ascii.eqb c "-" || Ascii.eqb c "." || Ascii.eqb c "e" || Ascii.eqb c "E")
                 (sign_str sg) = true) by (intros [[]|]; reflexivity).
  unfold render, render_body.
  rewrite !str_forallb_app, Hsg, (Hds _ Hi). cbn [andb].
  destruct n as [sg int [f|] [[up esg eds]|]]; unfold frac_list, exp_list in *;
    cbn [frac_digits num_exp render_exp exp_upper exp_sign exp_digits] in *;
    cbn [str_forallb]; rewrite ?str_forallb_app, ?Hsg, ?(Hds _ Hf), ?(Hds _ He);
    try reflexivity; destruct up; reflexivity.
Qed.

(** [float] on a rendered numeral: the text is ASCII, has no ['_'] and no
    white space, and its unsigned part starts with a digit or ['.']. *)
Lemma py_float_render n :
  valid_numeral n = true -> py_float (render n) = Some (numeral_float n).
Proof.
  intros Hv. pose proof (numeral_chars n Hv) as Hc.
  assert (Ha : is_ascii (render n) = true)
    by exact (str_forallb_impl _ _ _ (fun c H => proj1 (numeral_char_facts c H)) Hc).
  assert (Hu : forall s prev, Ascii.eqb prev "_" = false ->
             str_forallb (fun c => c_isdigit c || Ascii.eqb c "+" || Ascii.eqb c "-" ||
                        Ascii.eqb c "." || Ascii.eqb c "e" || Ascii.eqb c "E") s = true ->
             remove_underscores prev s = Some s).
  { induction s as [|c s IH]; intros prev Hp Hs; cbn [remove_underscores].
    - rewrite Hp. reflexivity.
    - cbn in Hs. apply andb_prop in Hs as [Hc0 Hs].
      destruct (numeral_char_facts c Hc0) as (_ & Hc_ & _).
      rewrite Hc_, Hp. cbn [andb]. rewrite (IH c Hc_ Hs). reflexivity. }
  assert (Hsp : forall s,
             str_forallb (fun c => c_isdigit c || Ascii.eqb c "+" || Ascii.eqb c "-" ||
                        Ascii.eqb c "." || Ascii.eqb c "e" || Ascii.eqb c "E") s = true ->
             c_strip s = s).
  { intros s Hs. unfold c_strip.
    assert (Hl : c_lstrip s = s).
    { destruct s as [|c s]; [reflexivity|]. cbn in Hs. apply andb_prop in Hs as [Hc0 _].
      cbn. rewrite (proj2 (proj2 (numeral_char_facts c Hc0))). reflexivity. }
    rewrite Hl. apply rstrip_by_none.
    refine (str_forallb_impl _ _ _ _ Hs). intros c Hc0.
    rewrite (proj2 (proj2 (numeral_char_facts c Hc0))). reflexivity. }
  unfold py_float, _PyUnicode_TransformDecimalAndSpaceToASCII. rewrite Ha.
  rewrite (Hu _ "000"%char eq_refl Hc), (Hsp _ Hc).
  (* the digits of the numeral *)
  unfold valid_numeral in Hv.
  apply andb_prop in Hv as [Hv Hx]. apply andb_prop in Hv as [Hd Hne].
  rewrite !forallb_app in Hd.
  apply andb_prop in Hd as [Hi Hd]. apply andb_prop in Hd as [Hf He].
  apply negb_true_iff, Nat.eqb_neq in Hne.
  (* the unsigned part *)
  assert (Hbody : exists c r, render_body n = String c r /\
                    (c_isdigit c || Ascii.eqb c ".") = true).
  { unfold render_body. destruct n as [sg [|d ds] f x]; cbn [int_digits] in *.
    - destruct f as [f|]; unfold frac_list in Hne; cbn in Hne; [|lia].
      do 2 eexists. split; reflexivity.
    - cbn [forallb] in Hi. apply andb_prop in Hi as [Hd0 _]. apply Nat.ltb_lt in Hd0.
      do 2 eexists. split; [reflexivity|]. rewrite digit_char_c_isdigit by exact Hd0.
      reflexivity. }
  destruct Hbody as (c & r & Hb & Hcr).
  assert (Hsplit : split_sign (render n) = (option_eq_true (num_sign n), render_body n)).
  { unfold render. destruct (num_sign n) as [[]|]; cbn [sign_str option_eq_true append];
      [reflexivity | reflexivity|]. rewrite Hb. apply split_sign_start, Hcr. }
  rewrite Hsplit. cbv beta iota. rewrite Hb, parse_inf_or_nan_start by exact Hcr.
  rewrite <- Hb. clear c r Hb Hcr Hsplit Hsp Hu Ha Hc.
  unfold numeral_float, numeral_value, parse_decimal, render_body.
  rewrite take_digits_app by exact Hi. cbn [Nat.add].
  (* the exponent part parses to the numeral's exponent *)
  assert (Hexp : parse_exponent (render_exp (num_exp n)) =
                 Some match num_exp n with
                      | None => 0%Z
                      | Some x => if option_eq_true (exp_sign x)
                                  then (- horner 0 (exp_digits x))%Z
                                  else horner 0 (exp_digits x)
                      end).
  { unfold exp_list in He. destruct (num_exp n) as [[up esg [|d ds]]|]; cbn in Hx.
    - discriminate Hx.
    - cbn [render_exp exp_upper exp_sign exp_digits] in *.
      cbn [forallb] in He. apply andb_prop in He as [Hd0 Hds]. apply Nat.ltb_lt in Hd0.
      assert (Hpe : forall b, (Ascii.eqb b "e" || Ascii.eqb b "E") = true ->
                parse_exponent (String b (sign_str esg ++ digits_str (d :: ds))) =
                Some (if option_eq_true esg then (- horner 0 (d :: ds))%Z
                      else horner 0 (d :: ds))).
      { intros b Hb. unfold parse_exponent. rewrite Hb.
        assert (Hs : split_sign (sign_str esg ++ digits_str (d :: ds)) =
                     (option_eq_true esg, digits_str (d :: ds))).
        { destruct esg as [[]|]; [reflexivity | reflexivity|].
          cbn [sign_str append digits_str fold_right option_eq_true].
          apply split_sign_start. rewrite digit_char_c_isdigit by exact Hd0. reflexivity. }
        rewrite Hs. rewrite <- (str_app_nil_r (digits_str (d :: ds))) at 1.
        rewrite take_digits_app by (cbn [forallb]; apply andb_true_intro; split;
                                    [apply Nat.ltb_lt; exact Hd0 | exact Hds]).
        reflexivity. }
      destruct up; apply Hpe; reflexivity.
    - reflexivity. }
  destruct (frac_digits n) as [f|] eqn:Ef; unfold frac_list in *; rewrite Ef in *.
  - (* a fraction part *)
    assert (Hnd : c_isdigit "."%char = false) by reflexivity.
    cbn [append]. rewrite take_digits_stop by exact Hnd. cbv iota beta.
    rewrite take_digits_app by exact Hf.
    assert (Hstop : forall v k, take_digits (render_exp (num_exp n)) v k =
                                (v, k, render_exp (num_exp n))).
    { intros v k. destruct (num_exp n) as [[[] esg eds]|]; reflexivity. }
    rewrite Hstop, Hexp, horner_app, Nat.add_0_l.
    replace (length (int_digits n) + length f =? 0) with false
      by (symmetry; apply Nat.eqb_neq; exact Hne).
    reflexivity.
  - (* no fraction part *)
    assert (Hstop : forall v k, take_digits (render_exp (num_exp n)) v k =
                                (v, k, render_exp (num_exp n))).
    { intros v k. destruct (num_exp n) as [[[] esg eds]|]; reflexivity. }
    cbn [append]. rewrite Hstop.
    assert (Hm : forall ip (k : nat),
               match render_exp (num_exp n) with
               | String "."%char r => take_digits r ip 0
               | _ => (ip, 0, render_exp (num_exp n))
               end = (ip, 0, render_exp (num_exp n))).
    { intros ip k. destruct (num_exp n) as [[[] esg eds]|]; reflexivity. }
    rewrite (Hm _ 0). rewrite Nat.add_0_r in Hne |- *.
    rewrite Hexp, app_nil_r. cbn [length]. rewrite Z.sub_0_r.
    replace (length (int_digits n) =? 0) with false
      by (symmetry; apply Nat.eqb_neq; lia).
    reflexivity.
Qed.

Lemma startswith_ack v : startswith ("ACK" ++ v) "ACK" = true.
Proof. apply prefix_app. Qed.

(** C2: the parsing step of [_query_numeric] (on the cleaned response)
    fails with "Unexpected response" on a response not starting with
    "ACK"; on "ACK" followed by a decimal numeral, scientific notation
    included, it returns the binary64 nearest to the numeral's value.
    "ACK7.4601E+02" parses to the same double as "ACK746.01", the one
    within half a unit in the last place (2^-44) of 746.01
    (the double 6561973355497390 * 2^-43), and
    "ACK1e400" parses to infinity. *)
Theorem parse_ack_numeric_spec :
  (forall resp, startswith resp "ACK" = false ->
     RS232Device.parse_ack_numeric resp =
     Err (DeviceError ("Unexpected response: " ++ resp))) /\
  (forall n, valid_numeral n = true ->
     RS232Device.parse_ack_numeric ("ACK" ++ render n) = Ok (numeral_float n)) /\
  RS232Device.parse_ack_numeric "ACK7.4601E+02" =
    RS232Device.parse_ack_numeric "ACK746.01" /\
  RS232Device.parse_ack_numeric "ACK7.4601E+02" =
    Ok (S754_finite false 6561973355497390 (-43)) /\
  (Qle_bool ((74601 # 100) - (1 # 17592186044416)) (6561973355497390 # 8796093022208) &&
   Qle_bool (6561973355497390 # 8796093022208) ((74601 # 100) + (1 # 17592186044416)))
    = true /\
  RS232Device.parse_ack_numeric "ACK1e400" = Ok (S754_infinity false).
Proof.
  split; [|split].
  - intros resp H. unfold RS232Device.parse_ack_numeric. rewrite H. reflexivity.
  - intros n H. unfold RS232Device.parse_ack_numeric.
    rewrite startswith_ack. cbn [negb py_drop append]. rewrite py_float_render by exact H.
    reflexivity.
  - repeat split; vm_compute; reflexivity.
Qed.

Lemma parse_ack_numeric_spec_witness :
  valid_numeral (mkNumeral None [7] (Some [4; 6; 0; 1])
                   (Some (mkExponent true (Some false) [0; 2]))) = true /\
  RS232Device.parse_ack_numeric ("ACK" ++ render (mkNumeral None [7] (Some [4; 6; 0; 1])
                   (Some (mkExponent true (Some false) [0; 2])))) =
    Ok (numeral_float (mkNumeral None [7] (Some [4; 6; 0; 1])
                   (Some (mkExponent true (Some false) [0; 2])))).
Proof.
  assert (H : valid_numeral (mkNumeral None [7] (Some [4; 6; 0; 1])
                   (Some (mkExponent true (Some false) [0; 2]))) = true)
    by reflexivity.
  split; [exact H|]. exact (proj1 (proj2 parse_ack_numeric_spec) _ H).
Defined.

(* ------------------------------------------------------------------ *)
(** ** The RS-232 adapter on an open port *)

Module RS232Facts.
Import RS232Device.


Lemma io_exn_not_device_error f : is_device_error (io_exn f) = false.
Proof. destruct f; reflexivity. Qed.

Ltac open_env :=
  unfold _readline, _write, reset_input, set_sent, set_wire;
  cbn [_ser ser_is_open negb wire lines write_faults reset_faults open_faults sent
       port baudrate address].

Lemma readline_open prt bd addr w snt :
  exists w' r,
    _readline (mkRS232 prt bd addr (Some (mkSerial true)) w snt) =
      (mkRS232 prt bd addr (Some (mkSerial true)) w' snt, r) /\
    ((exists l, r = Ok l) \/
     r = Err (DeviceError "No response from device.") \/
     (exists f, r = Err (io_exn f)) \/
     (exists m, r = Err (UnicodeDecodeError m))).
Proof.
  destruct w as [ls wf rf ofs]. open_env.
  destruct ls as [|[raw|f] ls].
  - eexists _, _. split; [reflexivity|]. right; left. reflexivity.
  - destruct (ascii_decode raw) as [x|] eqn:Ed.
    + eexists _, _. split; [reflexivity|]. right; right; right.
      unfold ascii_decode in Ed. revert Ed. generalize 0.
      induction raw as [|c raw IH]; intros i Ed; [discriminate Ed|].
      cbn [ascii_decode_at] in Ed. destruct (128 <=? nat_of_ascii c);
        [injection Ed as <-; eauto | exact (IH _ Ed)].
    + destruct (String.eqb (py_strip raw) EmptyString);
        eexists _, _; (split; [reflexivity|]); eauto.
  - eexists _, _. split; [reflexivity|]. eauto.
Qed.

Lemma reset_open prt bd addr w snt :
  exists w' r,
    reset_input (mkRS232 prt bd addr (Some (mkSerial true)) w snt) =
      (mkRS232 prt bd addr (Some (mkSerial true)) w' snt, r) /\
    (r = Ok tt \/ exists f, r = Err (io_exn f)).
Proof.
  destruct w as [ls wf rf ofs]. open_env.
  destruct rf as [|[f|] rf]; eexists _, _; (split; [reflexivity|]); eauto.
Qed.

Lemma write_open msg prt bd addr w snt :
  ascii_encode msg = None ->
  exists w' r,
    _write msg (mkRS232 prt bd addr (Some (mkSerial true)) w snt) =
      (mkRS232 prt bd addr (Some (mkSerial true)) w' (snt ++ [msg]), r) /\
    (r = Ok tt \/ exists f, r = Err (io_exn f)).
Proof.
  intros He. destruct w as [ls wf rf ofs]. open_env. rewrite He.
  destruct wf as [|[f|] wf]; eexists _, _; (split; [reflexivity|]); eauto.
Qed.

Lemma send_command_open cmd prt bd addr w snt :
  ascii_encode cmd = None ->
  exists w' cmds r,
    send_command cmd (mkRS232 prt bd addr (Some (mkSerial true)) w snt) =
      (mkRS232 prt bd addr (Some (mkSerial true)) w' (snt ++ cmds), r) /\
    (cmds = [cmd] \/ (cmds = [] /\ exists e, r = Err e)).
Proof.
  intros He. unfold send_command, bind.
  destruct (reset_open prt bd addr w snt) as (w1 & r1 & H1 & [-> | [f ->]]);
    rewrite H1.
  - destruct (write_open cmd prt bd addr w1 snt He) as (w2 & r2 & H2 & [-> | [f ->]]);
      rewrite H2.
    + destruct (readline_open prt bd addr w2 (snt ++ [cmd])) as (w3 & r3 & H3 & _).
      rewrite H3. eexists _, _, _. split; [reflexivity|]. left. reflexivity.
    + eexists _, _, _. split; [reflexivity|]. left. reflexivity.
  - exists w1, [], (Err (io_exn f)). rewrite app_nil_r. split; [reflexivity|].
    right. eauto.
Qed.

Lemma get_pressure_unit_open prt bd addr w snt :
  exists w' cmds r,
    get_pressure_unit (mkRS232 prt bd addr (Some (mkSerial true)) w snt) =
      (mkRS232 prt bd addr (Some (mkSerial true)) w' (snt ++ cmds), r) /\
    (cmds = [_format addr "U?P"] \/ (cmds = [] /\ exists e, r = Err e)) /\
    (forall u, r = Ok u -> cmds = [_format addr "U?P"]).
Proof.
  destruct (send_command_open (_format addr "U?P") prt bd addr w snt
              (format_ascii addr "U?P" eq_refl)) as (w1 & cmds & r & H & Hc).
  unfold get_pressure_unit, bind, gets. cbn [address]. rewrite H.
  exists w1, cmds.
  destruct r as [resp | e].
  - destruct Hc as [-> | (_ & e & He)]; [|discriminate He].
    destruct (negb (startswith (_clean_response resp) "ACK")); eexists;
      (split; [reflexivity|]); (split; [left; reflexivity | intros; reflexivity]).
  - eexists. split; [reflexivity|]. split; [exact Hc | intros u Hu; discriminate Hu].
Qed.


Lemma drain_open n : forall prt bd addr w snt,
  exists w' r,
    drain n (mkRS232 prt bd addr (Some (mkSerial true)) w snt) =
      (mkRS232 prt bd addr (Some (mkSerial true)) w' snt, r).
Proof.
  induction n as [|n IH]; intros prt bd addr w snt.
  - exists w, (Ok tt). reflexivity.
  - destruct (readline_open prt bd addr w snt) as (w1 & r & Hr & _).
    cbn [drain]. unfold bind, catch, ret, raise.
    rewrite Hr. destruct r as [l | e].
    + apply IH.
    + destruct e; eexists _, _; reflexivity.
Qed.

Lemma query_numeric_open mn prt bd addr w snt :
  is_ascii mn = true ->
  exists w' r,
    _query_numeric mn (mkRS232 prt bd addr (Some (mkSerial true)) w snt) =
    (mkRS232 prt bd addr (Some (mkSerial true)) w'
       (snt ++ [_format addr (mn ++ "?")])%list, r).
Proof.
  intros Hm.
  assert (He : ascii_encode (_format addr (mn ++ "?")) = None)
    by (apply format_ascii; rewrite is_ascii_app, Hm; reflexivity).
  destruct (write_open _ prt bd addr w snt He) as (w1 & r1 & H1 & [-> | [f ->]]).
  - destruct (readline_open prt bd addr w1 (snt ++ [_format addr (mn ++ "?")]))
      as (w2 & r2 & H2 & _).
    unfold _query_numeric, bind, gets. cbn [address]. rewrite H1, H2.
    destruct r2; eexists _, _; reflexivity.
  - unfold _query_numeric, bind, gets. cbn [address]. rewrite H1.
    eexists _, _; reflexivity.
Qed.

End RS232Facts.

(* ------------------------------------------------------------------ *)
(** ** Pressure-unit switching *)

(** C8: when the unit query already answers the requested unit,
    [set_pressure_unit] succeeds at once, in the state the query left: the
    only command written is that query. *)
Theorem set_pressure_unit_already_in_unit d unit d1 :
  RS232Device._ser d = Some (RS232Device.mkSerial true) ->
  RS232Device.get_pressure_unit d = (d1, Ok (py_upper unit)) ->
  RS232Device.set_pressure_unit unit d = (d1, Ok tt) /\
  RS232Device.sent d1 =
    (RS232Device.sent d ++ [_format (RS232Device.address d) "U?P"])%list.
Proof.
  intros Hs Hg. split.
  - unfold RS232Device.set_pressure_unit, RS232Device.bind, RS232Device.catch.
    rewrite Hg. cbn beta iota. rewrite String.eqb_refl. reflexivity.
  - destruct d as [prt bd addr ser w snt]; cbn in Hs; subst ser.
    destruct (RS232Facts.get_pressure_unit_open prt bd addr w snt)
      as (w' & cmds & r & Hr & _ & Hok).
    rewrite Hg in Hr. injection Hr as -> Hr.
    rewrite (Hok _ (eq_sym Hr)). reflexivity.
Qed.

Lemma set_pressure_unit_already_in_unit_witness :
  RS232Device.set_pressure_unit "torr"
    (RS232Device.mkRS232 "COM1" 9600 253 (Some (RS232Device.mkSerial true))
       (RS232Device.replies ["@253ACKTORR\"]) [])
  = (RS232Device.mkRS232 "COM1" 9600 253 (Some (RS232Device.mkSerial true))
       (RS232Device.replies []) [_format 253 "U?P"], Ok tt).
Proof.
  apply (set_pressure_unit_already_in_unit
           (RS232Device.mkRS232 "COM1" 9600 253 (Some (RS232Device.mkSerial true))
              (RS232Device.replies ["@253ACKTORR\"]) [])).
  - reflexivity.
  - vm_compute. reflexivity.
Defined.




(* ------------------------------------------------------------------ *)
(** ** Operations on a disconnected adapter *)

(** C10: the simulated adapter answers "ACKOK" to any command containing
    neither "P?" nor "T?", whatever its connection state; it can fail only
    on a command containing "P?" or "T?". *)
Theorem sim_send_command_other pv tv f1 f2 cmd d :
  (py_in "P?" cmd = false -> py_in "T?" cmd = false ->
     SimulatedDevice.send_command pv tv f1 f2 cmd d = (d, Ok "ACKOK")) /\
  (forall e, snd (SimulatedDevice.send_command pv tv f1 f2 cmd d) = Err e ->
     py_in "P?" cmd = true \/ py_in "T?" cmd = true).
Proof.
  unfold SimulatedDevice.send_command. split.
  - intros HP HT. rewrite HP, HT. reflexivity.
  - intros e He.
    destruct (py_in "P?" cmd); [left; reflexivity|].
    destruct (py_in "T?" cmd); [right; reflexivity|].
    discriminate He.
Qed.

Lemma sim_send_command_other_witness :
  SimulatedDevice.send_command (fun _ => S754_nan) (fun _ => S754_nan)
    (fun _ => EmptyString) (fun _ => EmptyString) "@253U?P"
    (SimulatedDevice.mkSim None 0 0 0 false 0)
  = (SimulatedDevice.mkSim None 0 0 0 false 0, Ok "ACKOK").
Proof.
  apply (proj1 (sim_send_command_other (fun _ => S754_nan) (fun _ => S754_nan)
    (fun _ => EmptyString) (fun _ => EmptyString) "@253U?P"
    (SimulatedDevice.mkSim None 0 0 0 false 0))); reflexivity.
Defined.

(** C6 (as stated): on either adapter, when it is not connected,
    [send_command] fails.  False for the simulated adapter: the command
    "@253U?P" gets the answer "ACKOK". *)
Lemma not_connected_send_command_counterexample :
  ~ (forall (d : SimulatedDevice.t) cmd,
       SimulatedDevice.is_connected d = false ->
       exists e, snd (SimulatedDevice.send_command (fun _ => S754_nan) (fun _ => S754_nan)
                        (fun _ => EmptyString) (fun _ => EmptyString) cmd d) = Err e).
Proof.
  intros H.
  destruct (H (SimulatedDevice.mkSim None 0 0 0 false 0) "@253U?P" eq_refl)
    as (e & He).
  discriminate He.
Qed.

(** C6, what the code does: an RS-232 adapter that is not connected has
    no port handle or a closed one.  With no handle, [read_pressure],
    [read_temperature], [query] and [send_command] fail with
    "Serial port not open." and change nothing; with a closed handle they
    fail with pyserial's [PortNotOpenError] and change nothing.  On a
    simulated adapter that is not connected, [read_pressure],
    [read_temperature] and [query] fail with
    "Not connected (simulation mode).", and so does [send_command] on a
    command containing "P?" or "T?"; any other command is answered
    "ACKOK". *)
Theorem not_connected_operations_fail :
  (forall d : RS232Device.t,
     RS232Device.is_connected d = false ->
     RS232Device._ser d = None \/
     RS232Device._ser d = Some (RS232Device.mkSerial false)) /\
  (forall (d : RS232Device.t) cmd,
     RS232Device._ser d = None ->
     let nc := DeviceError "Serial port not open." in
     RS232Device.read_pressure d = (d, Err nc) /\
     RS232Device.read_temperature d = (d, Err nc) /\
     query d = (d, Err nc) /\
     RS232Device.send_command cmd d = (d, Err nc)) /\
  (forall (d : RS232Device.t) cmd,
     RS232Device._ser d = Some (RS232Device.mkSerial false) ->
     RS232Device.read_pressure d = (d, Err PortNotOpenError) /\
     RS232Device.read_temperature d = (d, Err PortNotOpenError) /\
     query d = (d, Err PortNotOpenError) /\
     RS232Device.send_command cmd d = (d, Err PortNotOpenError)) /\
  (forall pv tv f1 f2 (d : SimulatedDevice.t) cmd,
     SimulatedDevice.is_connected d = false ->
     let nc := RuntimeError "Not connected (simulation mode)." in
     SimulatedDevice.read_pressure pv d = (d, Err nc) /\
     SimulatedDevice.read_temperature tv d = (d, Err nc) /\
     @query _ (SimulatedDevice.sim_base pv tv f1 f2) d = (d, Err nc) /\
     (py_in "P?" cmd || py_in "T?" cmd = true ->
        SimulatedDevice.send_command pv tv f1 f2 cmd d = (d, Err nc)) /\
     (py_in "P?" cmd || py_in "T?" cmd = false ->
        SimulatedDevice.send_command pv tv f1 f2 cmd d = (d, Ok "ACKOK"))).
Proof.
  split; [|split; [|split]].
  - intros [prt bd addr [[[|]]|] w snt] Hc; cbn in Hc; try discriminate Hc; auto.
  - intros [prt bd addr ser w snt] cmd Hs; cbn in Hs; subst ser.
    cbv zeta. repeat split; reflexivity.
  - intros [prt bd addr ser w snt] cmd Hs; cbn in Hs; subst ser.
    assert (Hq : forall mn, is_ascii mn = true ->
               RS232Device._query_numeric mn
                 (RS232Device.mkRS232 prt bd addr (Some (RS232Device.mkSerial false)) w snt) =
               (RS232Device.mkRS232 prt bd addr (Some (RS232Device.mkSerial false)) w snt,
                Err PortNotOpenError)).
    { intros mn Hm. unfold RS232Device._query_numeric, RS232Device.bind,
        RS232Device.gets, RS232Device._write.
      cbn [RS232Device._ser RS232Device.address].
      rewrite format_ascii by (rewrite is_ascii_app, Hm; reflexivity). reflexivity. }
    unfold query. cbn [read_pressure read_temperature RS232_base].
    unfold RS232Device.read_pressure, RS232Device.read_temperature.
    rewrite !Hq by reflexivity. repeat split; reflexivity.
  - intros pv tv f1 f2 [st sp tp ns [|] nw] cmd Hc; cbn in Hc; try discriminate Hc.
    cbv zeta. unfold SimulatedDevice.send_command, SimulatedDevice.read_pressure,
      SimulatedDevice.read_temperature.
    repeat split; try reflexivity.
    + destruct (py_in "P?" cmd); [reflexivity|]. destruct (py_in "T?" cmd);
        [reflexivity | discriminate].
    + destruct (py_in "P?" cmd); [discriminate|]. destruct (py_in "T?" cmd);
        [discriminate | reflexivity].
Qed.

Lemma not_connected_operations_fail_witness :
  RS232Device.send_command "@253P?"
    (RS232Device.mkRS232 "COM1" 9600 253 None (RS232Device.replies []) []) =
    (RS232Device.mkRS232 "COM1" 9600 253 None (RS232Device.replies []) [],
     Err (DeviceError "Serial port not open.")) /\
  query (RS232Device.mkRS232 "COM1" 9600 253 (Some (RS232Device.mkSerial false))
           (RS232Device.replies []) []) =
    (RS232Device.mkRS232 "COM1" 9600 253 (Some (RS232Device.mkSerial false))
       (RS232Device.replies []) [], Err PortNotOpenError) /\
  SimulatedDevice.send_command (fun _ => S754_nan) (fun _ => S754_nan)
    (fun _ => EmptyString) (fun _ => EmptyString) "@253U?P"
    (SimulatedDevice.mkSim None 0 0 0 false 0) =
    (SimulatedDevice.mkSim None 0 0 0 false 0, Ok "ACKOK").
Proof.
  destruct not_connected_operations_fail as (_ & Hnone & Hclosed & Hsim).
  split; [|split].
  - exact (proj2 (proj2 (proj2 (Hnone (RS232Device.mkRS232 "COM1" 9600 253 None
      (RS232Device.replies []) []) "@253P?" eq_refl)))).
  - exact (proj1 (proj2 (proj2 (Hclosed (RS232Device.mkRS232 "COM1" 9600 253
      (Some (RS232Device.mkSerial false)) (RS232Device.replies []) []) "@253P?" eq_refl)))).
  - apply (Hsim (fun _ => S754_nan) (fun _ => S754_nan)
             (fun _ => EmptyString) (fun _ => EmptyString)
             (SimulatedDevice.mkSim None 0 0 0 false 0) "@253U?P" eq_refl).
    reflexivity.
Defined.

(* ------------------------------------------------------------------ *)
(** ** Responses and queries *)

Lemma drop_digits_suffix s : exists pre, s = (pre ++ drop_digits s)%string.
Proof.
  induction s as [|c r IH]; [exists EmptyString; reflexivity|].
  cbn [drop_digits]. destruct (py_isdigit c).
  - destruct IH as [pre Hp]. exists (String c pre). cbn. rewrite <- Hp. reflexivity.
  - exists EmptyString. reflexivity.
Qed.

(** The cleaned response is what is left of the backslash-stripped line
    after a prefix. *)
Lemma clean_response_suffix line :
  exists pre,
    rstrip_by (fun c => Ascii.eqb c backslash) line = (pre ++ _clean_response line)%string.
Proof.
  unfold _clean_response.
  destruct (rstrip_by (fun c => Ascii.eqb c backslash) line) as [|a r];
    [exists EmptyString; reflexivity|].
  destruct a as [[] [] [] [] [] [] [] []];
    first [ exists EmptyString; reflexivity
          | destruct (drop_digits_suffix r) as [pre Hp];
            exists (String "@"%char pre); cbn; rewrite <- Hp; reflexivity ].
Qed.

(** [_clean_response] never leaves the terminator: its result never ends
    with a backslash, whatever the line. *)
Theorem clean_response_no_trailing_backslash line t :
  _clean_response line <> (t ++ String backslash EmptyString)%string.
Proof.
  intros Heq. destruct (clean_response_suffix line) as [pre Hp].
  rewrite Heq, <- str_app_assoc in Hp. apply rstrip_by_no_last in Hp.
  rewrite Ascii.eqb_refl in Hp. discriminate Hp.
Qed.

(** [query] on an open RS-232 port writes the pressure query and then,
    only when the pressure was read, the temperature query: the commands
    written are [P?] then [T?], or [P?] alone with an error. *)
Theorem rs232_query_writes prt bd addr w snt :
  exists w' cmds r,
    query (RS232Device.mkRS232 prt bd addr (Some (RS232Device.mkSerial true)) w snt) =
      (RS232Device.mkRS232 prt bd addr (Some (RS232Device.mkSerial true)) w'
         (snt ++ cmds)%list, r) /\
    (cmds = [_format addr "P?"; _format addr "T?"] \/
     (cmds = [_format addr "P?"] /\ exists e, r = Err e)).
Proof.
  destruct (RS232Facts.query_numeric_open "P" prt bd addr w snt eq_refl) as (w1 & r1 & H1).
  cbn [append] in H1.
  unfold query. cbn [read_pressure read_temperature RS232_base].
  unfold RS232Device.read_pressure, RS232Device.read_temperature.
  rewrite H1. destruct r1 as [p | e].
  - destruct (RS232Facts.query_numeric_open "T" prt bd addr w1
                (snt ++ [_format addr "P?"])%list eq_refl) as (w2 & r2 & H2).
    cbn [append] in H2. rewrite H2. rewrite <- app_assoc.
    exists w2, [_format addr "P?"; _format addr "T?"].
    destruct r2; eexists; split; try reflexivity; left; reflexivity.
  - exists w1, [_format addr "P?"], (Err e). split; [reflexivity|].
    right. split; [reflexivity | eauto].
Qed.

Lemma rs232_disconnect_not_connected d :
  RS232Device.is_connected (RS232Device.disconnect d) = false.
Proof. destruct d as [? ? ? [?|] ? ?]; reflexivity. Qed.

(* ------------------------------------------------------------------ *)
(** ** The polling engine *)

Module EngineFacts.
Import MeasurementModel.
Local Open Scope list_scope.

Section Generic.
Context {D : Type} `{BaseDevice D}.

Lemma raising_step_alive p ncb evs : raising_step p ncb = Some evs -> alive p = true.
Proof. destruct p; reflexivity || discriminate. Qed.

Lemma reach_head_step (s : state) p post :
  reachable s -> threads s = p :: post -> alive p = true ->
  reachable (head_step s).
Proof.
  intros Hr Ht Ha. unfold head_step. rewrite Ht.
  destruct (loop_step p (device s) (callbacks s) (stop_set s)) as [[p' d'] evs] eqn:E.
  eapply reach_step; [exact Hr|].
  apply (step_thread s [] p post p' d' evs); assumption.
Qed.

Lemma reach_head_step_alive (s : state) :
  reachable s -> thread_alive s = true -> reachable (head_step s).
Proof.
  unfold thread_alive. intros Hr Ha. destruct (threads s) as [|p post] eqn:Ht;
    [discriminate Ha | exact (reach_head_step s p post Hr Ht Ha)].
Qed.

Lemma reach_start (s : state) :
  reachable s -> caller_at s = Idle -> reachable (start s).
Proof. intros. eapply reach_step; [eassumption | now constructor]. Qed.

Lemma reach_subscribe (s : state) :
  reachable s -> caller_at s = Idle -> reachable (subscribe s).
Proof. intros. eapply reach_step; [eassumption | now constructor]. Qed.

Lemma reach_stop_signal (s : state) :
  reachable s -> caller_at s = Idle -> reachable (stop_signal s).
Proof. intros. eapply reach_step; [eassumption | now constructor]. Qed.

(** Every thread but [self._thread] has exited. *)
Lemma older_threads_exited (s : state) :
  reachable s -> Forall (fun p => alive p = false) (tl (threads s)).
Proof.
  induction 1 as [d | s s' Hr IH Hs]; [constructor|].
  destruct Hs as [s pre p post p' d' evs Ht Ha Hl | s pre p post evs Ht Hraise
                 | s Hc | s Hc | s Hc | s Hc Hj];
    cbn [threads start subscribe stop_signal stop_return] in *.
  - rewrite Ht in IH. destruct pre as [|q pre]; [exact IH|].
    cbn in IH. apply Forall_app in IH as [_ IH].
    inversion IH as [|? ? Hp _]. congruence.
  - rewrite Ht in IH. destruct pre as [|q pre]; [exact IH|].
    cbn in IH. apply Forall_app in IH as [_ IH].
    inversion IH as [|? ? Hp _]. apply raising_step_alive in Hraise. congruence.
  - unfold start. destruct (thread_alive s) eqn:E; [exact IH|].
    destruct (connect (device s)) as [d' [u|e]]; cbn; [|exact IH].
    unfold thread_alive in E. destruct (threads s) as [|p l]; [constructor|].
    constructor; assumption.
  - exact IH.
  - exact IH.
  - exact IH.
Qed.

Lemma only_head_steps (s : state) pre p post :
  reachable s -> threads s = pre ++ p :: post -> alive p = true -> pre = [].
Proof.
  intros Hr Ht Ha. pose proof (older_threads_exited s Hr) as Hf.
  rewrite Ht in Hf. destruct pre as [|q pre]; [reflexivity|].
  cbn in Hf. apply Forall_app in Hf as [_ Hf].
  inversion Hf. congruence.
Qed.

Lemma all_exited_when_head_exited (s : state) :
  reachable s -> thread_alive s = false ->
  Forall (fun p => alive p = false) (threads s).
Proof.
  intros Hr Hj. pose proof (older_threads_exited s Hr) as Hf.
  unfold thread_alive in Hj. destruct (threads s); [constructor|].
  constructor; assumption.
Qed.

Lemma head_exited_when_joined (s : state (D:=D)) :
  thread_alive s = false -> head_pc s = None \/ head_pc s = Some Exited.
Proof.
  unfold thread_alive, head_pc. intros Hj.
  destruct (threads s) as [|[] ?]; cbn; try discriminate Hj; auto.
Qed.

(** A thread step is a step of [self._thread], the newest thread. *)
Lemma thread_step_head (s : state) pre p post :
  reachable s -> threads s = pre ++ p :: post -> alive p = true ->
  pre = [] /\ head_pc s = Some p.
Proof.
  intros Hr Ht Ha. pose proof (only_head_steps s pre p post Hr Ht Ha) as ->.
  split; [reflexivity|]. unfold head_pc. rewrite Ht. reflexivity.
Qed.

(** Every step appends to the trace. *)
Lemma step_trace (s s' : state) : step s s' -> exists evs, trace s' = trace s ++ evs.
Proof.
  destruct 1 as [s pre p post p' d' evs Ht Ha Hl | s pre p post evs Ht Hraise
                | s Hc | s Hc | s Hc | s Hc Hj].
  - exists evs. reflexivity.
  - exists evs. reflexivity.
  - unfold start. destruct (thread_alive s); [exists []; symmetry; apply app_nil_r|].
    destruct (connect (device s)) as [d' [u|e]]; eexists; reflexivity.
  - exists []. symmetry. apply app_nil_r.
  - exists []. symmetry. apply app_nil_r.
  - eexists. reflexivity.
Qed.

(** C5: [start()] while [self._thread] is alive changes nothing (no new
    thread, no [connect], same state), and in every reachable state at most
    one sampling thread is alive. *)
Theorem start_when_running_is_noop (s : state) :
  reachable s ->
  (thread_alive s = true -> start s = s) /\
  length (filter alive (threads s)) <= 1.
Proof.
  intros Hr. split.
  - intros Ha. unfold start. rewrite Ha. reflexivity.
  - pose proof (older_threads_exited s Hr) as Hf. revert Hf.
    destruct (threads s) as [|p l]; cbn; intros Hf; [lia|].
    assert (Hl : filter alive l = []).
    { induction Hf as [|q l0 Hq _ IH]; [reflexivity|]. cbn. rewrite Hq. exact IH. }
    rewrite Hl. destruct (alive p); cbn; lia.
Qed.

(** C4: the step by which [stop()] returns happens only once every
    sampling thread has exited (the [join] returned), disconnects the
    adapter after that, and leaves it disconnected, whatever the last query
    did. *)
Theorem stop_returns_after_exit
  (Hdisc : forall d : D, is_connected (disconnect d) = false) (s s' : state) :
  reachable s -> step s s' -> caller_at s = Joining -> caller_at s' = Idle ->
  Forall (fun p => alive p = false) (threads s) /\
  threads s' = threads s /\
  device s' = disconnect (device s) /\
  is_connected (device s') = false /\
  trace s' = trace s ++ [DevDisconnect].
Proof.
  intros Hr Hs Hj Hi.
  destruct Hs as [s pre p post p' d' evs Ht Ha Hl | s pre p post evs Ht Hraise
                 | s Hc | s Hc | s Hc | s Hc Hj'];
    try (cbn in Hi; congruence).
  repeat split; [apply all_exited_when_head_exited; assumption | apply Hdisc].
Qed.

(** *** Events after an error *)

Lemma launch_cases (l : list event) : In Launch l \/ ~ In Launch l.
Proof.
  induction l as [|e l [IH|IH]]; [right; intros []| left; right; exact IH|].
  destruct e; try (right; intros [Hc|Hc]; [discriminate Hc | exact (IH Hc)]).
  left; left; reflexivity.
Qed.

Lemma until_launch_app_in (l1 l2 : list event) :
  In Launch l1 -> until_launch (l1 ++ l2) = until_launch l1.
Proof.
  induction l1 as [|e l1 IH]; intros Hin; [destruct Hin|].
  destruct Hin as [->|Hin]; [reflexivity|].
  cbn. destruct e; try reflexivity; f_equal; apply IH, Hin.
Qed.

Lemma until_launch_app_notin (l1 l2 : list event) :
  ~ In Launch l1 -> until_launch (l1 ++ l2) = l1 ++ until_launch l2.
Proof.
  induction l1 as [|e l1 IH]; intros Hn; [reflexivity|].
  cbn. destruct e;
    try (f_equal; apply IH; intros Hin; apply Hn; right; exact Hin).
  exfalso. apply Hn. left. reflexivity.
Qed.

Lemma until_launch_notin (l : list event) :
  ~ In Launch l -> until_launch l = l.
Proof.
  intros Hn. rewrite <- (app_nil_r l) at 1.
  rewrite until_launch_app_notin by exact Hn. apply app_nil_r.
Qed.

Lemma app_cons_split {A} (pre post l evs : list A) x :
  pre ++ x :: post = l ++ evs ->
  (exists post0, l = pre ++ x :: post0 /\ post = post0 ++ evs) \/
  (exists e1, evs = e1 ++ x :: post /\ pre = l ++ e1).
Proof.
  revert l. induction pre as [|y pre IH]; intros l Heq; cbn in Heq.
  - destruct l as [|z l]; cbn in Heq.
    + right. exists []. split; [symmetry; exact Heq | reflexivity].
    + injection Heq as -> ->. left. exists l. split; reflexivity.
  - destruct l as [|z l]; cbn in Heq.
    + right. exists (y :: pre). split; [symmetry; exact Heq | reflexivity].
    + injection Heq as -> Heq.
      destruct (IH l Heq) as [(post0 & -> & ->) | (e1 & -> & ->)].
      * left. exists post0. split; reflexivity.
      * right. exists e1. split; reflexivity.
Qed.

Lemma error_deliveries_S txt i j :
  error_deliveries txt i (S j) =
  error_deliveries txt i j ++ [Deliver (i + j) (MError txt)].
Proof. unfold error_deliveries. rewrite seq_S, map_app. reflexivity. Qed.

(** Once a run has been cut by a [Launch], what follows does not matter;
    otherwise the events of the step extend the run. *)
Lemma run_extend txt i post0 evs j rest (Q : nat -> list event -> Prop) :
  until_launch post0 = error_deliveries txt (S i) j ++ rest ->
  Forall (fun e => caller_event e = true) rest ->
  (~ In Launch post0 -> post0 = error_deliveries txt (S i) j ++ rest ->
     exists j' rest',
       (error_deliveries txt (S i) j ++ rest) ++ until_launch evs =
         error_deliveries txt (S i) j' ++ rest' /\
       Forall (fun e => caller_event e = true) rest' /\
       (~ In Launch evs -> Q j' rest')) ->
  exists j' rest',
    until_launch (post0 ++ evs) = error_deliveries txt (S i) j' ++ rest' /\
    Forall (fun e => caller_event e = true) rest' /\
    (~ In Launch (post0 ++ evs) -> Q j' rest').
Proof.
  intros H1 H2 Hk. destruct (launch_cases post0) as [Hin|Hn].
  - exists j, rest. rewrite until_launch_app_in by exact Hin.
    split; [exact H1|]. split; [exact H2|].
    intros Hn. exfalso. apply Hn, in_or_app. left. exact Hin.
  - rewrite until_launch_notin in H1 by exact Hn.
    destruct (Hk Hn H1) as (j' & rest' & E & F & G).
    exists j', rest'. rewrite until_launch_app_notin, H1 by exact Hn.
    split; [exact E|]. split; [exact F|].
    intros Hn'. apply G. intros Hin. apply Hn', in_or_app. right. exact Hin.
Qed.

(** The caller's own events extend the tail of caller events. *)
Lemma run_extend_caller txt i j rest evs :
  Forall (fun e => caller_event e = true) rest ->
  Forall (fun e => caller_event e = true) (until_launch evs) ->
  (error_deliveries txt (S i) j ++ rest) ++ until_launch evs =
    error_deliveries txt (S i) j ++ (rest ++ until_launch evs) /\
  Forall (fun e => caller_event e = true) (rest ++ until_launch evs).
Proof.
  intros H1 H2. split; [symmetry; apply app_assoc|]. apply Forall_app. auto.
Qed.

Lemma run_extend_deliver txt i j :
  (error_deliveries txt (S i) j ++ []) ++ until_launch [Deliver (S i + j) (MError txt)] =
  error_deliveries txt (S i) (S j) ++ [].
Proof. rewrite error_deliveries_S, !app_nil_r. reflexivity. Qed.

Lemma trace_same (l evs : list event) : l = l ++ evs -> evs = [].
Proof.
  intros Hl. destruct evs as [|e evs]; [reflexivity|]. exfalso.
  apply (f_equal (@length event)) in Hl. rewrite length_app in Hl. cbn in Hl. lia.
Qed.

Lemma no_error_among (evs e1 post : list event) i txt :
  (forall e, In e evs -> forall k t, e <> Deliver k (MError t)) ->
  evs = e1 ++ Deliver i (MError txt) :: post -> False.
Proof.
  intros Hev ->. refine (Hev (Deliver i (MError txt)) _ i txt eq_refl).
  apply in_or_app. right. left. reflexivity.
Qed.

Ltac no_error :=
  let e := fresh "e" in let He := fresh "He" in
  intros e He ? ?; cbn in He;
  repeat (destruct He as [<-|He]; [discriminate|]); exfalso; exact He.

Ltac split_loop_step Hl :=
  lazymatch type of Hl with
  | context [query ?d] => destruct (query d) as [? [?|?]]
  | (if ?b then _ else _) = _ => destruct b
  | _ => idtac
  end; injection Hl as <- <- <-.

Ltac case_if H :=
  lazymatch type of H with
  | (if ?b then _ else _) = _ => destruct b
  end.

(** The invariant behind error terminality: after an error delivered to
    callback [i], the rest of the run (up to the next [Launch]) is the same
    error delivered to callbacks [i+1], [i+2], ... in order, followed only
    by the caller's own [connect]/[disconnect] events; while no thread has
    been launched since, the newest thread is either still fanning that
    error out, to the next callback in that order, or has exited. *)
Lemma errors_close_the_run (s : state) :
  reachable s ->
  forall pre i txt post, trace s = pre ++ Deliver i (MError txt) :: post ->
  exists j rest,
    until_launch post = error_deliveries txt (S i) j ++ rest /\
    Forall (fun e => caller_event e = true) rest /\
    (~ In Launch post ->
       (rest = [] /\ head_pc s = Some (ErrFanout txt (S i + j))) \/
       head_pc s = Some Exited).
Proof.
  induction 1 as [d | s s' Hr IH Hs]; intros pre i txt post Htr.
  { cbn in Htr. destruct pre; discriminate Htr. }
  destruct (step_trace s s' Hs) as [evs Hev].
  rewrite Hev in Htr. symmetry in Htr.
  apply app_cons_split in Htr as [(post0 & Hl0 & ->) | (e1 & Hevs & _)].
  - (* the error was delivered before this step *)
    destruct (IH pre i txt post0 Hl0) as (j & rest & H1 & H2 & H3).
    apply (run_extend txt i post0 evs j rest
             (fun j' rest' => (rest' = [] /\ head_pc s' = Some (ErrFanout txt (S i + j'))) \/
                              head_pc s' = Some Exited) H1 H2).
    intros Hn Hp0. specialize (H3 Hn). cbv beta.
    destruct Hs as [s pre_t p post_t p' d' evs' Ht Ha Hl | s pre_t p post_t evs' Ht Hraise
                   | s Hc | s Hc | s Hc | s Hc Hj];
      cbn [trace subscribe stop_signal stop_return] in Hev;
      try (apply app_inv_head in Hev; subst evs).
    + (* a thread step: the newest thread's *)
      destruct (thread_step_head s pre_t p post_t Hr Ht Ha) as [-> Hh].
      unfold head_pc; cbn [threads app hd_error].
      destruct H3 as [[-> Hh'] | Hh']; rewrite Hh in Hh'; injection Hh' as ->;
        [|discriminate Ha].
      cbn [loop_step] in Hl.
      case_if Hl; injection Hl as <- <- <-.
      * exists (S j), []. split; [apply run_extend_deliver|]. split; [constructor|].
        intros _. left. split; [reflexivity|]. rewrite Nat.add_succ_r. reflexivity.
      * exists j, []. split; [cbn [until_launch]; rewrite !app_nil_r; reflexivity|].
        split; [constructor|]. intros _. right. reflexivity.
    + (* a thread dies of an exception *)
      pose proof (raising_step_alive _ _ _ Hraise) as Ha.
      destruct (thread_step_head s pre_t p post_t Hr Ht Ha) as [-> Hh].
      unfold head_pc; cbn [threads app hd_error].
      destruct H3 as [[-> Hh'] | Hh']; rewrite Hh in Hh'; injection Hh' as ->;
        cbn [raising_step] in Hraise; [|discriminate Hraise].
      case_if Hraise; [|discriminate Hraise]. injection Hraise as <-.
      exists (S j), []. split; [apply run_extend_deliver|]. split; [constructor|].
      intros _. right. reflexivity.
    + (* start() *)
      unfold start in Hev |- *. destruct (thread_alive s) eqn:Ea.
      * apply trace_same in Hev. subst evs.
        exists j, rest. cbn [until_launch]. rewrite app_nil_r. split; [reflexivity|].
        split; [exact H2|]. intros _. exact H3.
      * destruct (head_exited_when_joined s Ea) as [Hh|Hh];
          [destruct H3 as [[_ Hh'] | Hh']; congruence|].
        destruct (connect (device s)) as [d' [u|e]]; cbn [trace] in Hev;
          apply app_inv_head in Hev; subst evs.
        -- destruct (run_extend_caller txt i j rest [DevConnect; Launch] H2
                       ltac:(cbn [until_launch]; repeat constructor)) as [E F].
           exists j, (rest ++ until_launch [DevConnect; Launch]).
           split; [exact E|]. split; [exact F|].
           intros Hn'. exfalso. apply Hn'. right. left. reflexivity.
        -- destruct (run_extend_caller txt i j rest [DevConnect; StartFailed e] H2
                       ltac:(cbn [until_launch]; repeat constructor)) as [E F].
           exists j, (rest ++ until_launch [DevConnect; StartFailed e]).
           split; [exact E|]. split; [exact F|]. intros _. right. exact Hh.
    + (* subscribe *)
      apply trace_same in Hev. subst evs.
      exists j, rest. cbn [until_launch]. rewrite app_nil_r. split; [reflexivity|].
      split; [exact H2|]. intros _. exact H3.
    + (* stop() signalling *)
      apply trace_same in Hev. subst evs.
      exists j, rest. cbn [until_launch]. rewrite app_nil_r. split; [reflexivity|].
      split; [exact H2|]. intros _. exact H3.
    + (* stop() returning *)
      destruct (head_exited_when_joined s Hj) as [Hh|Hh];
        [destruct H3 as [[_ Hh'] | Hh']; congruence|].
      destruct (run_extend_caller txt i j rest [DevDisconnect] H2
                  ltac:(cbn [until_launch]; repeat constructor)) as [E F].
      exists j, (rest ++ until_launch [DevDisconnect]).
      split; [exact E|]. split; [exact F|]. intros _. right. exact Hh.
  - (* the error is delivered by this very step *)
    destruct Hs as [s pre_t p post_t p' d' evs' Ht Ha Hl | s pre_t p post_t evs' Ht Hraise
                   | s Hc | s Hc | s Hc | s Hc Hj];
      cbn [trace subscribe stop_signal stop_return] in Hev;
      try (apply app_inv_head in Hev; rewrite <- Hev in Hevs).
    + destruct (thread_step_head s pre_t p post_t Hr Ht Ha) as [-> _].
      unfold head_pc; cbn [threads app hd_error].
      destruct p as [| | m k | t j | m | | ]; cbn [loop_step] in Hl;
        split_loop_step Hl;
        try (exfalso; refine (no_error_among _ e1 post i txt _ Hevs); no_error).
      destruct e1 as [|x e1]; cbn [app] in Hevs.
      * injection Hevs as -> -> <-. exists 0, [].
        split; [reflexivity|]. split; [constructor|].
        intros _. left. split; [reflexivity|]. rewrite Nat.add_0_r. reflexivity.
      * injection Hevs as _ Hp. destruct e1; discriminate Hp.
    + pose proof (raising_step_alive _ _ _ Hraise) as Ha.
      destruct (thread_step_head s pre_t p post_t Hr Ht Ha) as [-> _].
      unfold head_pc; cbn [threads app hd_error].
      destruct p as [| | m k | t j | m | | ]; cbn [raising_step] in Hraise;
        try discriminate Hraise;
        try (case_if Hraise; [|discriminate Hraise]);
        injection Hraise as <-;
        try (exfalso; refine (no_error_among _ e1 post i txt _ Hevs); no_error).
      destruct e1 as [|x e1]; cbn [app] in Hevs.
      * injection Hevs as -> -> <-. exists 0, [].
        split; [reflexivity|]. split; [constructor|]. intros _. right. reflexivity.
      * injection Hevs as _ Hp. destruct e1; discriminate Hp.
    + exfalso. unfold start in Hev. destruct (thread_alive s).
      * apply trace_same in Hev. rewrite Hev in Hevs. destruct e1; discriminate Hevs.
      * destruct (connect (device s)) as [d' [u|e]]; cbn [trace] in Hev;
          apply app_inv_head in Hev; rewrite <- Hev in Hevs;
          refine (no_error_among _ e1 post i txt _ Hevs); no_error.
    + exfalso. apply trace_same in Hev. rewrite Hev in Hevs. destruct e1; discriminate Hevs.
    + exfalso. apply trace_same in Hev. rewrite Hev in Hevs. destruct e1; discriminate Hevs.
    + exfalso. refine (no_error_among _ e1 post i txt _ Hevs); no_error.
Qed.

(** C1 (amended): an error delivered to callback [i] ends the run of the
    sampling thread that delivered it.  Up to the next [Launch] of a
    thread by [start()], the events after it are the same error delivered
    to callbacks [i+1], [i+2], ... (each once, in order), and then only the
    caller's own [connect()], failed [start()] and [disconnect()] events:
    no measurement is delivered and no row is logged. *)
Theorem error_terminal_per_run (s : state) pre i txt post :
  reachable s ->
  trace s = pre ++ Deliver i (MError txt) :: post ->
  exists j rest,
    until_launch post = error_deliveries txt (S i) j ++ rest /\
    Forall (fun e => caller_event e = true) rest.
Proof.
  intros Hr Htr.
  destruct (errors_close_the_run s Hr pre i txt post Htr) as (j & rest & H1 & H2 & _).
  exists j, rest. split; assumption.
Qed.

(** *** Fan-out before the logger row *)

Lemma fanout_events_S m n :
  fanout_events m (S n) = fanout_events m n ++ [Deliver n (MMeasurement m)].
Proof. unfold fanout_events. rewrite seq_S, map_app. reflexivity. Qed.

Lemma head_step_step (s : state) p post :
  threads s = p :: post -> alive p = true -> step s (head_step s).
Proof.
  intros Ht Ha. unfold head_step. rewrite Ht.
  destruct (loop_step p (device s) (callbacks s) (stop_set s)) as [[p' d'] evs] eqn:E.
  apply (step_thread s [] p post p' d' evs); assumption.
Qed.

Lemma app_not_self {A} (l : list A) x : l <> l ++ [x].
Proof.
  intros Hl. apply (f_equal (@length A)) in Hl.
  rewrite length_app in Hl. cbn in Hl. lia.
Qed.

Lemma iteration_start_append l m : iteration_start (l ++ [Append m]) = true.
Proof. unfold iteration_start. rewrite last_last. reflexivity. Qed.

Lemma iteration_start_launch l : iteration_start (l ++ [DevConnect; Launch]) = true.
Proof.
  unfold iteration_start. change [DevConnect; Launch] with ([DevConnect] ++ [Launch]).
  rewrite app_assoc, last_last. reflexivity.
Qed.

(** An iteration of the newest thread starts at its [Launch] or after the
    row of its previous sample; while it fans a measurement out, the trace
    ends with that iteration's deliveries to callbacks [0 .. i-1]; once it
    is about to log the row, with the whole fan-out of the iteration. *)
Lemma fanout_progress (s : state) :
  reachable s ->
  match head_pc s with
  | Some LoopHead | Some Querying | Some Sleeping => iteration_start (trace s) = true
  | Some (Fanout m i) =>
      i <= callbacks s /\
      exists pre, trace s = pre ++ fanout_events m i /\ iteration_start pre = true
  | Some (LogRow m) =>
      exists pre n, n <= callbacks s /\ trace s = pre ++ fanout_events m n /\
                    iteration_start pre = true
  | _ => True
  end.
Proof.
  induction 1 as [d | s s' Hr IH Hs]; [exact I|].
  destruct Hs as [s pre_t p post_t p' d' evs Ht Ha Hl | s pre_t p post_t evs Ht Hraise
                 | s Hc | s Hc | s Hc | s Hc Hj].
  - destruct (thread_step_head s pre_t p post_t Hr Ht Ha) as [-> Hh].
    rewrite Hh in IH. unfold head_pc; cbn [threads trace callbacks app hd_error].
    destruct p as [| | m k | t j | m | | ]; cbn [loop_step] in Hl; [..| discriminate Ha];
      cbv beta iota in IH.
    + split_loop_step Hl; cbv beta iota; [exact I | rewrite app_nil_r; exact IH].
    + split_loop_step Hl; cbv beta iota; [|exact I].
      split; [lia|]. exists (trace s). split; [reflexivity | exact IH].
    + destruct IH as [Hk [pre [Hpre Hit]]].
      destruct (k <? callbacks s) eqn:Hk'; injection Hl as <- <- <-; cbv beta iota.
      * apply Nat.ltb_lt in Hk'. split; [lia|].
        exists pre. rewrite Hpre, fanout_events_S, app_assoc. split; [reflexivity | exact Hit].
      * exists pre, k. split; [exact Hk|]. rewrite app_nil_r. split; assumption.
    + destruct (j <? callbacks s); injection Hl as <- <- <-; exact I.
    + injection Hl as <- <- <-. apply iteration_start_append.
    + injection Hl as <- <- <-. cbv beta iota. rewrite app_nil_r. exact IH.
  - apply raising_step_alive in Hraise.
    destruct (thread_step_head s pre_t p post_t Hr Ht Hraise) as [-> _]. exact I.
  - unfold start. destruct (thread_alive s) eqn:Ea; [exact IH|].
    destruct (head_exited_when_joined s Ea) as [E|E];
      destruct (connect (device s)) as [d' [u|e]]; unfold head_pc; cbn [threads trace].
    + apply iteration_start_launch.
    + unfold head_pc in E. rewrite E. exact I.
    + apply iteration_start_launch.
    + unfold head_pc in E. rewrite E. exact I.
  - change (head_pc (subscribe s)) with (head_pc s).
    destruct (head_pc s) as [[]|]; try exact IH; cbn [callbacks trace subscribe].
    + destruct IH as [Hi Hp]. split; [lia | exact Hp].
    + destruct IH as [pre [n [Hn Hp]]]. exists pre, n. split; [lia | exact Hp].
  - exact IH.
  - change (head_pc (stop_return s)) with (head_pc s).
    destruct (head_exited_when_joined s Hj) as [E|E]; rewrite E; exact I.
Qed.

(** C9: the step that ends the fan-out of a measurement [m] (the [for]
    loop over [self._callbacks] exits) happens only once every registered
    callback got [m], in registration order [0 .. n-1], these deliveries
    being all the events of the iteration; it adds nothing to the trace.
    A logger row for [m] is appended only by the thread that has finished
    that fan-out: the iteration's events before the row are exactly the
    deliveries of [m] to callbacks [0 .. n-1]. *)
Theorem fanout_then_append (s s' : state) :
  reachable s -> step s s' ->
  (forall m i, head_pc s = Some (Fanout m i) -> head_pc s' = Some (LogRow m) ->
     i = callbacks s /\ trace s' = trace s /\
     exists pre, trace s = pre ++ fanout_events m i /\ iteration_start pre = true) /\
  (forall m, trace s' = trace s ++ [Append m] ->
     head_pc s = Some (LogRow m) /\
     exists pre n, n <= callbacks s /\ trace s = pre ++ fanout_events m n /\
                   iteration_start pre = true).
Proof.
  intros Hr Hs. pose proof (fanout_progress s Hr) as Hinv. split.
  - intros m i Hh Hh'. rewrite Hh in Hinv. destruct Hinv as [Hi Hpre].
    destruct Hs as [s pre_t p post_t p' d' evs Ht Ha Hl | s pre_t p post_t evs Ht Hraise
                   | s Hc | s Hc | s Hc | s Hc Hj].
    + destruct (thread_step_head s pre_t p post_t Hr Ht Ha) as [-> Hh2].
      rewrite Hh in Hh2. injection Hh2 as <-.
      unfold head_pc in Hh'. cbn [threads trace callbacks app hd_error] in Hh' |- *.
      cbn [loop_step] in Hl.
      destruct (i <? callbacks s) eqn:Hlt; injection Hl as <- <- <-;
        [discriminate Hh'|].
      apply Nat.ltb_ge in Hlt. split; [lia|].
      split; [apply app_nil_r | exact Hpre].
    + apply raising_step_alive in Hraise.
      destruct (thread_step_head s pre_t p post_t Hr Ht Hraise) as [-> _].
      unfold head_pc in Hh'. cbn in Hh'. discriminate Hh'.
    + unfold start in Hh'. destruct (thread_alive s) eqn:Ea; [congruence|].
      exfalso. unfold thread_alive, head_pc in Ea, Hh.
      destruct (threads s); cbn in Hh; [discriminate Hh|].
      injection Hh as ->. discriminate Ea.
    + change (head_pc (subscribe s)) with (head_pc s) in Hh'. congruence.
    + change (head_pc (stop_signal s)) with (head_pc s) in Hh'. congruence.
    + destruct (head_exited_when_joined s Hj); congruence.
  - intros m Htr.
    destruct Hs as [s pre_t p post_t p' d' evs Ht Ha Hl | s pre_t p post_t evs Ht Hraise
                   | s Hc | s Hc | s Hc | s Hc Hj].
    + destruct (thread_step_head s pre_t p post_t Hr Ht Ha) as [-> Hh].
      cbn [trace] in Htr. apply app_inv_head in Htr.
      rewrite Hh in Hinv |- *.
      destruct p; cbn [loop_step] in Hl; [..| discriminate Ha];
        split_loop_step Hl; try discriminate Htr.
      injection Htr as ->. split; [reflexivity | exact Hinv].
    + exfalso. cbn [trace] in Htr. apply app_inv_head in Htr.
      destruct p; cbn [raising_step] in Hraise; try discriminate Hraise;
        try (case_if Hraise; [|discriminate Hraise]);
        injection Hraise as <-; discriminate Htr.
    + exfalso. unfold start in Htr. destruct (thread_alive s).
      * exact (app_not_self _ _ Htr).
      * destruct (connect (device s)) as [d' [u|e]]; cbn [trace] in Htr;
          apply app_inv_head in Htr; discriminate Htr.
    + exact (False_ind _ (app_not_self _ _ Htr)).
    + exact (False_ind _ (app_not_self _ _ Htr)).
    + cbn [trace stop_return] in Htr. apply app_inv_head in Htr. discriminate Htr.
Qed.

End Generic.
End EngineFacts.

(* ------------------------------------------------------------------ *)
(** ** Concrete runs of the engine over the RS-232 adapter *)

Module EngineRuns.
Import MeasurementModel EngineFacts.
Local Open Scope list_scope.

Ltac reach_run :=
  repeat first
    [ apply reach_init
    | apply reach_head_step_alive; [| vm_compute; reflexivity]
    | apply reach_start; [| reflexivity]
    | apply reach_subscribe; [| reflexivity]
    | apply reach_stop_signal; [| reflexivity] ].

(** C1 (as stated): a failed query ends the first run with an error
    delivered to both subscribers; [start()] then launches a new thread,
    whose first sample reaches callback 0 as a measurement. *)
Lemma error_then_measurement_counterexample :
  ~ (forall s : state (D:=RS232Device.t), reachable s ->
       forall pre i txt post,
         trace s = pre ++ Deliver i (MError txt) :: post ->
         forall k m, ~ In (Deliver k (MMeasurement m)) post).
Proof.
  intros Hall.
  pose (d0 := RS232Device.mkRS232 "COM1" 9600 253 None
                (RS232Device.replies [""; "ACK1"; "ACK2"]) []).
  pose (s := head_steps 3 (start (head_steps 5
               (start (subscribe (subscribe (init d0))))))).
  assert (Hr : reachable s) by (unfold s; cbn [head_steps]; reach_run).
  refine (Hall s Hr [DevConnect; Launch] 0 "DeviceError: No response from device."
            [Deliver 1 (MError "DeviceError: No response from device.");
             DevConnect; Launch;
             Deliver 0 (MMeasurement (mkMeasurement (S754_finite false 4503599627370496 (-52))
                                                     (S754_finite false 4503599627370496 (-51))))]
            _ 0 (mkMeasurement (S754_finite false 4503599627370496 (-52)) (S754_finite false 4503599627370496 (-51))) _).
  - vm_compute. reflexivity.
  - right. right. right. left. reflexivity.
Qed.

(** The run above satisfies the amended C1: after the error to callback
    0 come the same error to callback 1 and the caller's [connect()]; the
    measurement only follows the next [Launch]. *)
Lemma error_terminal_per_run_witness :
  let s := head_steps 3 (start (head_steps 5
             (start (subscribe (subscribe (init
               (RS232Device.mkRS232 "COM1" 9600 253 None
                  (RS232Device.replies [""; "ACK1"; "ACK2"]) []))))))) in
  reachable s /\
  trace s = [DevConnect; Launch] ++
            Deliver 0 (MError "DeviceError: No response from device.") ::
            [Deliver 1 (MError "DeviceError: No response from device.");
             DevConnect; Launch;
             Deliver 0 (MMeasurement (mkMeasurement (S754_finite false 4503599627370496 (-52))
                                                     (S754_finite false 4503599627370496 (-51))))] /\
  exists j rest,
    until_launch
      [Deliver 1 (MError "DeviceError: No response from device.");
       DevConnect; Launch;
       Deliver 0 (MMeasurement (mkMeasurement (S754_finite false 4503599627370496 (-52))
                                               (S754_finite false 4503599627370496 (-51))))] =
      error_deliveries "DeviceError: No response from device." 1 j ++ rest /\
    Forall (fun e => caller_event e = true) rest.
Proof.
  intros s.
  assert (Hr : reachable s) by (unfold s; cbn [head_steps]; reach_run).
  assert (Htr : trace s = [DevConnect; Launch] ++
            Deliver 0 (MError "DeviceError: No response from device.") ::
            [Deliver 1 (MError "DeviceError: No response from device.");
             DevConnect; Launch;
             Deliver 0 (MMeasurement (mkMeasurement (S754_finite false 4503599627370496 (-52))
                                                     (S754_finite false 4503599627370496 (-51))))])
    by (vm_compute; reflexivity).
  split; [exact Hr|]. split; [exact Htr|].
  exact (error_terminal_per_run s _ _ _ _ Hr Htr).
Defined.

(** C5 on a live thread: [start()] is a no-op there. *)
Lemma start_when_running_is_noop_witness :
  let s := start (subscribe (init (RS232Device.mkRS232 "COM1" 9600 253 None
             (RS232Device.replies ["ACK1"; "ACK2"]) []))) in
  reachable s /\ thread_alive s = true /\
  ((thread_alive s = true -> start s = s) /\
   length (filter alive (threads s)) <= 1).
Proof.
  intros s.
  assert (Hr : reachable s) by (unfold s; reach_run).
  split; [exact Hr|]. split; [vm_compute; reflexivity|].
  exact (start_when_running_is_noop s Hr).
Defined.

(** C4: [stop()] on a running engine; the thread sees the flag and exits,
    then the join returns and the port is closed. *)
Lemma stop_returns_after_exit_witness :
  let s := head_step (stop_signal (start (subscribe (init
             (RS232Device.mkRS232 "COM1" 9600 253 None
                (RS232Device.replies ["ACK1"; "ACK2"]) []))))) in
  reachable s /\ step s (stop_return s) /\ caller_at s = Joining /\
  caller_at (stop_return s) = Idle /\
  (Forall (fun p => alive p = false) (threads s) /\
   threads (stop_return s) = threads s /\
   device (stop_return s) = disconnect (device s) /\
   is_connected (device (stop_return s)) = false /\
   trace (stop_return s) = trace s ++ [DevDisconnect]).
Proof.
  intros s.
  assert (Hr : reachable s) by (unfold s; reach_run).
  assert (Hs : step s (stop_return s))
    by (apply step_stop_return; vm_compute; reflexivity).
  assert (Hj : caller_at s = Joining) by (vm_compute; reflexivity).
  assert (Hi : caller_at (stop_return s) = Idle) by reflexivity.
  split; [exact Hr|]. split; [exact Hs|]. split; [exact Hj|]. split; [exact Hi|].
  exact (stop_returns_after_exit rs232_disconnect_not_connected s _ Hr Hs Hj Hi).
Defined.

(** C9: one subscriber; the fan-out of the first sample ends after
    callback 0, and the next step writes the row. *)
Lemma fanout_then_append_witness :
  let s := head_step (head_step (head_step (start (subscribe (init
             (RS232Device.mkRS232 "COM1" 9600 253 None
                (RS232Device.replies ["ACK1"; "ACK2"]) [])))))) in
  reachable s /\ step s (head_step s) /\
  head_pc (head_step s) =
    Some (LogRow (mkMeasurement (S754_finite false 4503599627370496 (-52)) (S754_finite false 4503599627370496 (-51)))) /\
  ((forall m i, head_pc s = Some (Fanout m i) ->
      head_pc (head_step s) = Some (LogRow m) ->
      i = callbacks s /\ trace (head_step s) = trace s /\
      exists pre, trace s = pre ++ fanout_events m i /\ iteration_start pre = true) /\
   (forall m, trace (head_step s) = trace s ++ [Append m] ->
      head_pc s = Some (LogRow m) /\
      exists pre n, n <= callbacks s /\ trace s = pre ++ fanout_events m n /\
                    iteration_start pre = true)).
Proof.
  intros s.
  assert (Hr : reachable s) by (unfold s; reach_run).
  assert (Hs : step s (head_step s))
    by exact (head_step_step s _ _ eq_refl eq_refl).
  split; [exact Hr|]. split; [exact Hs|]. split; [vm_compute; reflexivity|].
  exact (fanout_then_append s _ Hr Hs).
Defined.

End EngineRuns.

(* ------------------------------------------------------------------ *)
(** ** The unit column of the CSV rows *)

Lemma py_in_char_cons c a r :
  py_in (String c EmptyString) (String a r) =
  Ascii.eqb a c || py_in (String c EmptyString) r.
Proof.
  cbn [py_in String.prefix]. destruct (ascii_dec c a) as [<- | Hne].
  - rewrite Ascii.eqb_refl. destruct r; reflexivity.
  - replace (Ascii.eqb a c) with false; [reflexivity|].
    symmetry. apply Ascii.eqb_neq. congruence.
Qed.

Lemma py_in_char_app c x y :
  py_in (String c EmptyString) (x ++ y) =
  py_in (String c EmptyString) x || py_in (String c EmptyString) y.
Proof.
  induction x as [|a x IH]; [destruct y; reflexivity|].
  cbn [append]. rewrite !py_in_char_cons, IH, orb_assoc. reflexivity.
Qed.

Lemma split_nonempty c s : py_split_char c s <> [].
Proof.
  destruct s as [|x r]; cbn; [discriminate|].
  destruct (Ascii.eqb x c); [discriminate|].
  destruct (py_split_char c r); discriminate.
Qed.

(** [(x + sep + y).split(sep) == x.split(sep) + y.split(sep)] *)
Lemma split_app_sep c x y :
  py_split_char c (x ++ String c y) = (py_split_char c x ++ py_split_char c y)%list.
Proof.
  induction x as [|a x IH]; cbn [append py_split_char].
  - rewrite Ascii.eqb_refl. reflexivity.
  - rewrite IH. destruct (Ascii.eqb a c); [reflexivity|].
    destruct (py_split_char c x) as [|p ps] eqn:E; [exfalso; exact (split_nonempty c x E)|].
    reflexivity.
Qed.

Lemma split_nosep c s :
  py_in (String c EmptyString) s = false -> py_split_char c s = [s].
Proof.
  induction s as [|a r IH]; [reflexivity|].
  rewrite py_in_char_cons. intros H. apply orb_false_iff in H as [Ha Hr].
  cbn [py_split_char]. rewrite Ha, (IH Hr). reflexivity.
Qed.

Lemma rfind_app c x y :
  rfind_char c (x ++ y) =
  match rfind_char c y with
  | Some i => Some (String.length x + i)
  | None => rfind_char c x
  end.
Proof.
  induction x as [|a x IH]; cbn [append rfind_char String.length].
  - destruct (rfind_char c y); reflexivity.
  - rewrite IH. destruct (rfind_char c y); reflexivity.
Qed.

Lemma str_length_app x y :
  String.length (x ++ y) = String.length x + String.length y.
Proof. induction x as [|a x IH]; cbn; [|rewrite IH]; reflexivity. Qed.

Lemma substring_app x y : substring 0 (String.length x) (x ++ y) = x.
Proof. induction x as [|a x IH]; cbn; [destruct y|rewrite IH]; reflexivity. Qed.

Lemma log_row_create prefix unit dir stamp ts m :
  py_in "_" prefix = false -> py_in "_" unit = false ->
  py_in "/" prefix = false -> py_in "/" unit = false -> py_in "/" stamp = false ->
  log_row (CsvLogger.create prefix unit dir stamp) ts m =
    Some [CStr ts; CStr unit; CFloat (pressure m); CFloat (temperature m);
          CStr EmptyString].
Proof.
  intros Hp_ Hu_ Hps Hus Hss.
  unfold log_row, CsvLogger._file_path, CsvLogger.create.
  cbn [CsvLogger._base_dir CsvLogger.prefix CsvLogger.unit CsvLogger.stamp].
  set (stem := (prefix ++ "_" ++ unit ++ "_measurements_" ++ stamp)%string).
  assert (Hname : (prefix ++ "_" ++ unit ++ "_measurements_" ++ stamp ++ ".csv")%string
                  = (stem ++ ".csv")%string)
    by (unfold stem; rewrite !str_app_assoc; reflexivity).
  rewrite Hname.
  assert (Hstem : path_stem (dir ++ "/" ++ stem ++ ".csv") = stem).
  { unfold path_stem, path_name.
    change (dir ++ "/" ++ stem ++ ".csv")%string
      with (dir ++ String "/"%char (stem ++ ".csv"))%string.
    rewrite split_app_sep, (split_nosep "/"%char (stem ++ ".csv")).
    2:{ unfold stem. rewrite !py_in_char_app, Hps, Hus, Hss. reflexivity. }
    rewrite last_last, rfind_app.
    replace (rfind_char "."%char ".csv") with (Some 0) by reflexivity.
    cbv iota. rewrite Nat.add_0_r, str_length_app.
    assert (Hlen : 0 < String.length stem)
      by (unfold stem; rewrite !str_length_app; cbn [String.length]; lia).
    replace ((0 <? String.length stem) &&
             (String.length stem <? String.length stem + String.length ".csv" - 1))
      with true by (symmetry; apply andb_true_iff; split; apply Nat.ltb_lt;
                    cbn [String.length]; lia).
    apply substring_app. }
  rewrite Hstem. unfold stem.
  change (prefix ++ "_" ++ unit ++ "_measurements_" ++ stamp)%string
    with (prefix ++ String "_"%char (unit ++ String "_"%char ("measurements_" ++ stamp)))%string.
  rewrite !split_app_sep, (split_nosep _ prefix Hp_), (split_nosep _ unit Hu_).
  reflexivity.
Qed.

(** The unit column of the rows [_loop] logs is the unit in the log file's
    name: when neither the prefix nor the unit contains ['_'] and none of
    prefix, unit and creation stamp contains ['/'], every row carries the
    logger's unit (and no row raises [IndexError]). *)
Theorem log_row_unit_column prefix unit dir stamp ts m :
  py_in "_" prefix = false -> py_in "_" unit = false ->
  py_in "/" prefix = false -> py_in "/" unit = false -> py_in "/" stamp = false ->
  log_row (CsvLogger.create prefix unit dir stamp) ts m =
    Some [CStr ts; CStr unit; CFloat (pressure m); CFloat (temperature m);
          CStr EmptyString].
Proof. apply log_row_create. Qed.

Lemma log_row_unit_column_witness :
  (py_in "_" "real" = false /\ py_in "_" "mbar" = false /\
   py_in "/" "real" = false /\ py_in "/" "mbar" = false /\
   py_in "/" "20261017_120000" = false) /\
  log_row (CsvLogger.create "real" "mbar" "logs" "20261017_120000") "2026-10-17 12:00:01"
    (mkMeasurement (S754_finite false 4503599627370496 (-52)) (S754_finite false 6192449487634432 (-48))) =
    Some [CStr "2026-10-17 12:00:01"; CStr "mbar"; CFloat (S754_finite false 4503599627370496 (-52));
          CFloat (S754_finite false 6192449487634432 (-48)); CStr EmptyString].
Proof.
  assert (H1 : py_in "_" "real" = false) by reflexivity.
  assert (H2 : py_in "_" "mbar" = false) by reflexivity.
  assert (H3 : py_in "/" "real" = false) by reflexivity.
  assert (H4 : py_in "/" "mbar" = false) by reflexivity.
  assert (H5 : py_in "/" "20261017_120000" = false) by reflexivity.
  split; [tauto|].
  exact (log_row_unit_column "real" "mbar" "logs" "20261017_120000" _ _ H1 H2 H3 H4 H5).
Defined.

(* ------------------------------------------------------------------ *)
(** ** The dashboard's queue drain *)

(** The dashboard's drain over [n] measurements taken from the [k]-th item
    on. *)
Lemma drain_items_measurements utc ms : forall k q df,
  drain_items utc k (map MeasurementModel.MMeasurement ms ++ q) df =
  drain_items utc (k + length ms) q
    (df ++ map (fun '(i, m) => mkRow (utc i) (pressure m) (temperature m))
               (combine (seq k (length ms)) ms)).
Proof.
  induction ms as [|m ms IH]; intros k q df; cbn [map app length seq combine].
  - rewrite Nat.add_0_r, app_nil_r. reflexivity.
  - cbn [drain_items]. rewrite IH. cbn [map].
    rewrite <- app_assoc, Nat.add_succ_r. reflexivity.
Qed.

(** [_drain_queue]: the measurements queued before the first error become
    rows, in order, stamped with the successive [utcnow()] values; the
    error is stored, the controller is stopped, and the items after the
    error stay queued.  With no error item, every measurement becomes a row,
    the queue ends empty, and the error message and controller are
    untouched. *)
Theorem drain_queue_rows utc ms e rest df err c :
  let rows := map (fun '(i, m) => mkRow (utc i) (pressure m) (temperature m))
                  (combine (seq 0 (length ms)) ms) in
  _drain_queue utc
    (map MeasurementModel.MMeasurement ms ++ MeasurementModel.MError e :: rest)%list
    df err c = (rest, (df ++ rows)%list, e, Controller.stop c) /\
  _drain_queue utc (map MeasurementModel.MMeasurement ms) df err c =
    ([], (df ++ rows)%list, err, c).
Proof.
  intros rows. unfold _drain_queue. split.
  - rewrite drain_items_measurements. reflexivity.
  - rewrite <- (app_nil_r (map MeasurementModel.MMeasurement ms)).
    rewrite drain_items_measurements. reflexivity.
Qed.

(* ------------------------------------------------------------------ *)
(** ** The simulated adapter *)

Module NoErrorRuns.
Import MeasurementModel.
Local Open Scope list_scope.

Section Generic.
Context {D : Type} `{BaseDevice D}.
(** An adapter whose queries succeed while it is connected, and that a
    successful [connect] leaves connected. *)
Hypothesis query_connected : forall d : D, is_connected d = true ->
  exists d' m, query d = (d', Ok m) /\ is_connected d' = true.
Hypothesis connect_connected : forall (d d' : D) u,
  connect d = (d', Ok u) -> is_connected d' = true.

Lemma no_error_invariant (s : state (D:=D)) :
  reachable s ->
  Forall (fun p => match p with ErrFanout _ _ => False | _ => True end) (threads s) /\
  (thread_alive s = true -> is_connected (device s) = true) /\
  (forall i txt, ~ In (Deliver i (MError txt)) (trace s)).
Proof.
  induction 1 as [d | s s' Hr IH Hs].
  - split; [constructor|]. split; [discriminate|]. intros i txt [].
  - destruct IH as (Hf & Hcon & Hno).
    assert (Hev : forall evs, (forall i txt, ~ In (Deliver i (MError txt)) evs) ->
              forall i txt, ~ In (Deliver i (MError txt)) (trace s ++ evs)).
    { intros evs Hn i txt Hin. apply in_app_or in Hin as [Hin|Hin];
        [exact (Hno i txt Hin) | exact (Hn i txt Hin)]. }
    destruct Hs as [s pre p post p' d' evs Ht Ha Hl | s pre p post evs Ht Hraise
                   | s Hc | s Hc | s Hc | s Hc Hj].
    + pose proof (EngineFacts.only_head_steps s pre p post Hr Ht Ha) as ->.
      cbn [app] in *. rewrite Ht in Hf. inversion Hf as [|? ? Hp Hpost]; subst.
      unfold thread_alive in Hcon. rewrite Ht in Hcon. specialize (Hcon Ha).
      cbn [threads device trace]. unfold thread_alive. cbn [threads].
      destruct p; cbn [loop_step] in Hl; try discriminate Ha; try contradiction.
      * destruct (stop_set s); injection Hl as <- <- <-;
          (split; [constructor; auto|]);
          [split; [discriminate|] | split; [intros _; exact Hcon|]];
          apply Hev; intros i txt [].
      * destruct (query_connected (device s) Hcon) as (d1 & m & Hq & Hc1).
        rewrite Hq in Hl. injection Hl as <- <- <-.
        split; [constructor; auto|]. split; [intros _; exact Hc1|].
        apply Hev. intros i txt [].
      * destruct (i <? callbacks s); injection Hl as <- <- <-;
          (split; [constructor; auto|]); (split; [intros _; exact Hcon|]);
          apply Hev; intros i0 txt; [intros [Hd|[]]; discriminate Hd | intros []].
      * injection Hl as <- <- <-. split; [constructor; auto|].
        split; [intros _; exact Hcon|]. apply Hev.
        intros i txt [Hd|[]]; discriminate Hd.
      * injection Hl as <- <- <-. split; [constructor; auto|].
        split; [intros _; exact Hcon|]. apply Hev. intros i txt [].
    + pose proof (EngineFacts.raising_step_alive _ _ _ Hraise) as Ha.
      pose proof (EngineFacts.only_head_steps s pre p post Hr Ht Ha) as ->.
      cbn [app] in *. rewrite Ht in Hf. inversion Hf as [|? ? Hp Hpost]; subst.
      cbn [threads device trace]. split; [constructor; [exact I | exact Hpost]|].
      split; [unfold thread_alive; cbn [threads]; discriminate|].
      apply Hev. intros i txt Hin.
      destruct p; cbn [raising_step] in Hraise; try discriminate Hraise;
        try contradiction;
        try (lazymatch type of Hraise with (if ?b then _ else _) = _ => destruct b end;
             [|discriminate Hraise]);
        injection Hraise as <-; cbn in Hin;
        repeat (destruct Hin as [Hd|Hin]; [discriminate Hd|]); exact Hin.
    + unfold start. destruct (thread_alive s) eqn:Ea; [auto|].
      destruct (connect (device s)) as [d1 [u|e]] eqn:Ec; cbn [threads device trace].
      * split; [constructor; [exact I | exact Hf]|].
        split; [intros _; exact (connect_connected _ _ _ Ec)|].
        apply Hev. intros i txt [Hd|[Hd|[]]]; discriminate Hd.
      * split; [exact Hf|]. split; [unfold thread_alive in *; cbn [threads]; congruence|].
        apply Hev. intros i txt [Hd|[Hd|[]]]; discriminate Hd.
    + auto.
    + auto.
    + cbn [stop_return threads device trace]. split; [exact Hf|].
      split; [unfold thread_alive in *; cbn [stop_return threads]; intros Ha; congruence|].
      apply Hev. intros i txt [Hd|[]]; discriminate Hd.
Qed.

End Generic.

(** With the simulated adapter the polling thread never reports an error:
    in every reachable state no subscriber has been handed an error
    message, and no thread is in the error fan-out. *)
Theorem sim_engine_never_reports_error pv tv f1 f2 (s : state (D:=SimulatedDevice.t)) :
  @reachable _ (SimulatedDevice.sim_base pv tv f1 f2) s ->
  Forall (fun p => match p with ErrFanout _ _ => False | _ => True end) (threads s) /\
  (forall i txt, ~ In (Deliver i (MError txt)) (trace s)).
Proof.
  intros Hr.
  assert (Hq : forall d : SimulatedDevice.t,
             @is_connected _ (SimulatedDevice.sim_base pv tv f1 f2) d = true ->
             exists d' m, @query _ (SimulatedDevice.sim_base pv tv f1 f2) d = (d', Ok m) /\
                          @is_connected _ (SimulatedDevice.sim_base pv tv f1 f2) d' = true).
  { intros [st sp tp ns [|] nw] Hc; [|discriminate Hc]. do 2 eexists. split; reflexivity. }
  assert (Hc : forall (d d' : SimulatedDevice.t) u,
             @connect _ (SimulatedDevice.sim_base pv tv f1 f2) d = (d', Ok u) ->
             @is_connected _ (SimulatedDevice.sim_base pv tv f1 f2) d' = true).
  { intros d d' u E. injection E as <- _. reflexivity. }
  destruct (@no_error_invariant _ (SimulatedDevice.sim_base pv tv f1 f2) Hq Hc s Hr)
    as (Hf & _ & Hno).
  split; assumption.
Qed.

Lemma sim_engine_never_reports_error_witness :
  let pv := fun _ : SimulatedDevice.t => S754_finite false 7205759403792794 (-56) in
  let tv := fun _ : SimulatedDevice.t => S754_finite false 6192449487634432 (-48) in
  let f := fun _ : pyfloat => EmptyString in
  let s := @head_steps _ (SimulatedDevice.sim_base pv tv f f) 3
             (@start _ (SimulatedDevice.sim_base pv tv f f)
                (subscribe (init (SimulatedDevice.mkSim None (1#10) 22 (5#100) false 0%Q)))) in
  @reachable _ (SimulatedDevice.sim_base pv tv f f) s /\
  (Forall (fun p => match p with ErrFanout _ _ => False | _ => True end) (threads s) /\
   (forall i txt, ~ In (Deliver i (MError txt)) (trace s))).
Proof.
  intros pv tv f s.
  assert (Hr : @reachable _ (SimulatedDevice.sim_base pv tv f f) s)
    by (unfold s; cbn [head_steps]; EngineRuns.reach_run).
  split; [exact Hr|]. exact (sim_engine_never_reports_error pv tv f f s Hr).
Defined.

End NoErrorRuns.
